(** * nanobrowser: code favourites, executed-code provenance, planner schedule

    A shallow embedding of the parts of the extension that store and match
    code favourites ([packages/storage/lib/code-favorites/favorites.ts]),
    recover executed code from a transcript message (the side panel's
    [MessageBlock]), build the Navigator system prompt
    ([agent/prompts/navigator.ts]) and decide when the planner runs.

    JavaScript strings are modelled as [string]: sequences of code units,
    here restricted to the 8-bit range.  JavaScript numbers that hold
    identifiers, counters and timestamps are modelled as [Z]: the store only
    produces integers far inside the exactly representable range. *)

From Stdlib Require Import String Ascii List ZArith Bool Arith Lia.
From Stdlib Require Import DecimalString Sorted Permutation.
From ExtLib Require Import Structures.Monad Structures.MonadExc.
From ExtLib Require Import Data.Monads.EitherMonad.
Import ListNotations.
Import MonadNotation.

Local Open Scope monad_scope.
Local Open Scope list_scope.
Local Open Scope string_scope.

(* ===================================================================== *)
(** * Part I: the program *)
(* ===================================================================== *)

(** ** JavaScript string primitives used by the sources *)

(** [s.includes(p)]: [p] occurs in [s] at some position. *)
Fixpoint includes (s p : string) : bool :=
  prefix p s ||
  match s with
  | EmptyString => false
  | String _ s' => includes s' p
  end.

(** [p] occurs in [s]: the relation that [includes] decides. *)
Definition Occurs (p s : string) : Prop :=
  exists before after, s = before ++ p ++ after.

(** [s.slice(n)] for [0 <= n]. *)
Fixpoint drop (n : nat) (s : string) : string :=
  match n, s with
  | O, _ => s
  | S _, EmptyString => EmptyString
  | S k, String _ s' => drop k s'
  end.

(** The text before and after the leftmost occurrence of [p] in [s]; [None]
    when [p] does not occur ([s.indexOf(p) === -1]). *)
Fixpoint splitAtFirst (p s : string) : option (string * string) :=
  if prefix p s then Some (EmptyString, drop (String.length p) s)
  else
    match s with
    | EmptyString => None
    | String c s' =>
        match splitAtFirst p s' with
        | Some (before, after) => Some (String c before, after)
        | None => None
        end
    end.

(** [s.replace(pat, rep)] with a string pattern and a replacement holding no
    [$]: only the first occurrence is replaced. *)
Definition replaceFirst (s pat rep : string) : string :=
  match splitAtFirst pat s with
  | Some (before, after) => before ++ rep ++ after
  | None => s
  end.

(** White space and line terminators removed by [trim], in the 8-bit range:
    TAB, LF, VT, FF, CR, SPACE and NBSP. *)
Definition isWhiteSpace (c : ascii) : bool :=
  let n := nat_of_ascii c in
  ((9 <=? n)%nat && (n <=? 13)%nat) || (n =? 32)%nat || (n =? 160)%nat.

Fixpoint trimStart (s : string) : string :=
  match s with
  | EmptyString => EmptyString
  | String c s' => if isWhiteSpace c then trimStart s' else s
  end.

Fixpoint trimEnd (s : string) : string :=
  match s with
  | EmptyString => EmptyString
  | String c s' =>
      match trimEnd s' with
      | EmptyString => if isWhiteSpace c then EmptyString else String c EmptyString
      | r => String c r
      end
  end.

Definition trim (s : string) : string := trimEnd (trimStart s).

(** The double-quote character, for string constants that contain it. *)
Definition dq : string := String (ascii_of_nat 34) EmptyString.

(* --------------------------------------------------------------------- *)
(** ** The executed-code provenance block ([MessageBlock]) *)
(* --------------------------------------------------------------------- *)

Module Codec.

Definition startMarker : string := "<nano_executed_code>".
Definition endMarker : string := "</nano_executed_code>".

(** The leftmost match of [/<nano_executed_code>([\s\S]*?)<\/nano_executed_code>/]
    in [content]: the text before it, the captured group and the text after
    it.  The group is lazy, so it ends at the first end marker that follows
    the start marker; and when the leftmost start marker has no end marker
    after it, no later start marker has one either, so there is no match. *)
Definition findBlock (content : string) : option (string * string * string) :=
  match splitAtFirst startMarker content with
  | None => None
  | Some (before, rest) =>
      match splitAtFirst endMarker rest with
      | None => None
      | Some (inner, after) => Some (before, inner, after)
      end
  end.

(** [message.content.match(...)] followed by [codeMatch[1]]. *)
Definition codeMatch (content : string) : option string :=
  match findBlock content with
  | Some (_, inner, _) => Some inner
  | None => None
  end.

(** [hasCodeExecutedText]: one of the three outcome phrasings occurs. *)
Definition hasCodeExecutedText (content : string) : bool :=
  includes content "Code executed" ||
  includes content "Code execution failed" ||
  includes content "Error executing code".

(** JavaScript truthiness of an optional string: [undefined] and the empty
    string are falsy. *)
Definition truthy (s : option string) : bool :=
  match s with
  | None => false
  | Some s' => negb (s' =? "")
  end.

(** [codeToSave]: the code handed in by the parent or, failing that, the
    block found in the message when the message reads like an execution
    outcome. *)
Definition codeToSave (executedCode : option string) (content : string)
  : option string :=
  if negb (truthy executedCode) && hasCodeExecutedText content then
    match codeMatch content with
    | Some c => Some c
    | None => executedCode
    end
  else executedCode.

(** [content.replace(/<nano_executed_code>[\s\S]*?<\/nano_executed_code>/g, '')]:
    every match, leftmost first, is removed and the search resumes after it.
    [fuel] bounds the number of matches replaced. *)
Fixpoint stripBlocks (fuel : nat) (content : string) : string :=
  match fuel with
  | O => content
  | S fuel' =>
      match findBlock content with
      | None => content
      | Some (before, _, after) => before ++ stripBlocks fuel' after
      end
  end.

(** [displayContent]: a string of length [n] holds fewer than [n] matches. *)
Definition displayContent (content : string) : string :=
  stripBlocks (String.length content) content.

(** What it means for [r] to be [s] with some delimited blocks removed and
    nothing else: every character is kept, in order, except the characters
    of whole blocks (start marker, inner text, end marker). *)
Inductive BlocksRemoved : string -> string -> Prop :=
| BR_done : BlocksRemoved EmptyString EmptyString
| BR_keep c s r : BlocksRemoved s r -> BlocksRemoved (String c s) (String c r)
| BR_block inner s r :
    BlocksRemoved s r ->
    BlocksRemoved (startMarker ++ inner ++ endMarker ++ s) r.

(** Keys of the locale messages used by the code-execution action. *)
Inductive MessageKey :=
| act_executeCode_ok
| act_executeCode_failed
| act_executeCode_error.

(** Modelled from the spec: the code-execution action of the Navigator's
    action builder is not among the sources; section 4.2 gives Encode as
    appending, after the outcome text, the code between the two markers. *)
Definition encode (outcomeText code : string) : string :=
  outcomeText ++ startMarker ++ code ++ endMarker.

Section Outcomes.

(** The locale lookup [t(key, substitutions)]. *)
Variable t : MessageKey -> list string -> string.

(** Modelled from the spec: the three outcome branches of the
    code-execution action (not among the sources), each applying Encode to
    its own outcome text. *)
Definition successMessage (outputStr codeString : string) : string :=
  encode (t act_executeCode_ok [outputStr]) codeString.

Definition failureMessage (error codeString : string) : string :=
  encode (t act_executeCode_failed [error]) codeString.

Definition errorMessage (message codeString : string) : string :=
  encode (t act_executeCode_error [message]) codeString.

End Outcomes.

(** Modelled from the spec: the locale file is not among the sources; the
    three outcome texts begin with the phrasings of success, failure and
    error that the notes on the save button quote, followed by the
    substituted text. *)
Definition englishLocale (key : MessageKey) (substitutions : list string)
  : string :=
  match key with
  | act_executeCode_ok => "Code executed successfully. Output: "
  | act_executeCode_failed => "Code execution failed: "
  | act_executeCode_error => "Error executing code: "
  end ++ hd "" substitutions.

(** [hasExecutedCode]: the message comes from the Navigator and either the
    parent handed in code or the text reads like an execution outcome.
    [fromNavigator] is [message.actor === Actors.NAVIGATOR]. *)
Definition hasExecutedCode (fromNavigator : bool) (executedCode : option string)
    (content : string) : bool :=
  fromNavigator && (truthy executedCode || hasCodeExecutedText content).

(** What a click on the save button does. *)
Inductive SaveEffect :=
| CallOnSaveCode (messageIndex : nat) (code : string)
| AlertNoCode.

(** The string held by an optional string that passed a truthiness test. *)
Definition held (s : option string) : string :=
  match s with
  | Some s' => s'
  | None => EmptyString
  end.

(** [handleSaveClick]: [onSaveCode] tells whether the parent passed the
    handler. *)
Definition handleSaveClick (messageIndex : nat) (executedCode : option string)
    (content : string) (onSaveCode : bool) : SaveEffect :=
  let toSave := codeToSave executedCode content in
  if truthy toSave && onSaveCode then CallOnSaveCode messageIndex (held toSave)
  else if truthy executedCode && onSaveCode
       then CallOnSaveCode messageIndex (held executedCode)
       else AlertNoCode.

End Codec.

(* --------------------------------------------------------------------- *)
(** ** The favourites store ([code-favorites/favorites.ts]) *)
(* --------------------------------------------------------------------- *)

Module Favorites.

Record CodeFavorite := mkFavorite {
  id : Z;
  name : string;
  code : string;
  urlPattern : string;
  useCount : Z;
  createdAt : Z
}.

Record CodeFavoritesStorage := mkStorage {
  nextId : Z;
  favorites : list CodeFavorite
}.

Definition initialState : CodeFavoritesStorage :=
  {| nextId := 1; favorites := [] |}.

(** *** Regular expressions, as far as [urlMatchesPattern] builds them *)

(** The characters escaped by [/[.*+?^${}()|[\]\\]/g]; they are also the
    syntax characters of the regular-expression grammar. *)
Definition isSyntaxCharacter (c : ascii) : bool :=
  existsb (Ascii.eqb c)
    (list_ascii_of_string ".*+?^${}()|[]\").

(** [pattern.replace(/[.*+?^${}()|[\]\\]/g, '\\$&')]. *)
Fixpoint escapeSyntax (pattern : string) : string :=
  match pattern with
  | EmptyString => EmptyString
  | String c rest =>
      if isSyntaxCharacter c then String "\" (String c (escapeSyntax rest))
      else String c (escapeSyntax rest)
  end.

(** [s.replace(/\*/g, '.*')]. *)
Fixpoint replaceStars (s : string) : string :=
  match s with
  | EmptyString => EmptyString
  | String c rest =>
      if Ascii.eqb c "*" then String "." (String "*" (replaceStars rest))
      else String c (replaceStars rest)
  end.

Definition patternRegex (pattern : string) : string :=
  replaceStars (escapeSyntax pattern).

Inductive Atom :=
| AChar (c : ascii)   (* a pattern character or an escaped syntax character *)
| AAny.               (* [.] *)

Inductive Term :=
| TStart              (* [^] *)
| TEnd                (* [$] *)
| TOnce (a : Atom)
| TStar (a : Atom).   (* greedy [a*] *)

(** [new RegExp(src)] without flags, for sources made of pattern characters,
    escaped syntax characters, [.], [^], [$] and [*] after an atom.  [None]
    stands for a source outside this fragment (which includes every source
    that raises a SyntaxError). *)
Fixpoint parseTerms (src : string) : option (list Term) :=
  match src with
  | EmptyString => Some []
  | String c rest =>
      if Ascii.eqb c "^" then option_map (cons TStart) (parseTerms rest)
      else if Ascii.eqb c "$" then option_map (cons TEnd) (parseTerms rest)
      else if Ascii.eqb c "\" then
        match rest with
        | EmptyString => None
        | String e rest' =>
            if isSyntaxCharacter e then
              match rest' with
              | EmptyString => option_map (cons (TOnce (AChar e))) (parseTerms rest')
              | String q rest'' =>
                  if Ascii.eqb q "*"
                  then option_map (cons (TStar (AChar e))) (parseTerms rest'')
                  else option_map (cons (TOnce (AChar e))) (parseTerms rest')
              end
            else None
        end
      else if isSyntaxCharacter c && negb (Ascii.eqb c ".") then None
      else
        let a := if Ascii.eqb c "." then AAny else AChar c in
        match rest with
        | EmptyString => option_map (cons (TOnce a)) (parseTerms rest)
        | String q rest' =>
            if Ascii.eqb q "*"
            then option_map (cons (TStar a)) (parseTerms rest')
            else option_map (cons (TOnce a)) (parseTerms rest)
        end
  end.

(** [.] matches every character but a line terminator. *)
Definition atomMatches (a : Atom) (c : ascii) : bool :=
  match a with
  | AChar d => Ascii.eqb d c
  | AAny => negb (Ascii.eqb c (ascii_of_nat 10) || Ascii.eqb c (ascii_of_nat 13))
  end.

(** Does the term sequence match at the current position?  [atStart] tells
    whether the position is the start of the input. *)
Fixpoint matchHere (ts : list Term) (atStart : bool) (s : string) : bool :=
  match ts with
  | [] => true
  | TStart :: ts' => atStart && matchHere ts' atStart s
  | TEnd :: ts' =>
      match s with
      | EmptyString => matchHere ts' atStart s
      | String _ _ => false
      end
  | TOnce a :: ts' =>
      match s with
      | EmptyString => false
      | String c s' => atomMatches a c && matchHere ts' false s'
      end
  | TStar a :: ts' =>
      (fix star (atStart : bool) (s : string) {struct s} : bool :=
         matchHere ts' atStart s ||
         match s with
         | EmptyString => false
         | String c s' => atomMatches a c && star false s'
         end) atStart s
  end.

(** [regex.test(s)]: a match at some position of [s]. *)
Fixpoint search (ts : list Term) (atStart : bool) (s : string) : bool :=
  matchHere ts atStart s ||
  match s with
  | EmptyString => false
  | String _ s' => search ts false s'
  end.

Definition test (regex : list Term) (s : string) : bool := search regex true s.

(** *** URL-pattern matching *)

Inductive Exception :=
| TypeError     (* [new URL(s)] on a string that is not a URL *)
| SyntaxError.  (* [new RegExp(src)] on an invalid source *)

Definition Completion : Type -> Type := sum Exception.

Definition newRegExp (src : string) : Completion (list Term) :=
  match parseTerms src with
  | Some regex => ret regex
  | None => raise SyntaxError
  end.

(** The fallback of the [catch] block. *)
Definition simpleComparison (url pattern : string) : bool :=
  (url =? pattern) || includes url pattern || includes pattern url.

Section UrlMatching.

(** The platform's URL parser, seen through the one property read from it:
    [origin s] is [new URL(s).origin], and [None] when the constructor
    throws. *)
Variable origin : string -> option string.

Definition newURL (s : string) : Completion string :=
  match origin s with
  | Some o => ret o
  | None => raise TypeError
  end.

(** The body of the [try] block. *)
Definition tryMatch (url pattern : string) : Completion bool :=
  urlObj <- newURL url ;;
  patternObj <- newURL pattern ;;
  if url =? pattern then ret true
  else if urlObj =? patternObj then ret true
  else
    regex <- newRegExp ("^" ++ patternRegex pattern ++ "$") ;;
    ret (test regex url).

(** [urlMatchesPattern] with its outcome made explicit: a returned boolean
    or an exception leaving the function. *)
Definition urlMatchesPatternC (url pattern : string) : Completion bool :=
  catch (tryMatch url pattern) (fun _ => ret (simpleComparison url pattern)).

Definition urlMatchesPattern (url pattern : string) : bool :=
  match tryMatch url pattern with
  | inr b => b
  | inl _ => simpleComparison url pattern
  end.

(** *** Store operations: each is the updater handed to [storage.set],
    together with the value the operation resolves to. *)

Definition addFavorite (name code urlPattern : string) (now : Z)
    (prev : CodeFavoritesStorage) : CodeFavoritesStorage * option CodeFavorite :=
  let id := nextId prev in
  let newFavorite :=
    {| id := id; name := name; code := code; urlPattern := urlPattern;
       useCount := 0; createdAt := now |} in
  let next := {| nextId := id + 1; favorites := newFavorite :: favorites prev |} in
  (next, hd_error (favorites next)).

(** [{ ...favorite, name, code, urlPattern }]. *)
Definition withDetails (favorite : CodeFavorite) (name code urlPattern : string)
  : CodeFavorite :=
  {| id := id favorite; name := name; code := code; urlPattern := urlPattern;
     useCount := useCount favorite; createdAt := createdAt favorite |}.

(** The [map] callback of [updateFavorite] assigns the captured variable
    [updatedFavorite] whenever it meets the identifier; the variable is
    threaded through the traversal. *)
Fixpoint mapUpdating (id : Z) (name code urlPattern : string)
    (favs : list CodeFavorite) (updatedFavorite : option CodeFavorite)
  : list CodeFavorite * option CodeFavorite :=
  match favs with
  | [] => ([], updatedFavorite)
  | favorite :: rest =>
      if (Favorites.id favorite =? id)%Z then
        let updated := withDetails favorite name code urlPattern in
        let (rest', final) := mapUpdating id name code urlPattern rest (Some updated) in
        (updated :: rest', final)
      else
        let (rest', final) := mapUpdating id name code urlPattern rest updatedFavorite in
        (favorite :: rest', final)
  end.

Definition updateFavorite (id : Z) (name code urlPattern : string)
    (prev : CodeFavoritesStorage) : CodeFavoritesStorage * option CodeFavorite :=
  let (updatedFavorites, updatedFavorite) :=
    mapUpdating id name code urlPattern (favorites prev) None in
  match updatedFavorite with
  | None => (prev, None)
  | Some _ =>
      ({| nextId := nextId prev; favorites := updatedFavorites |}, updatedFavorite)
  end.

(** The record-by-record effect of [updateFavorite]'s traversal. *)
Definition updatedOr (id : Z) (name code urlPattern : string)
    (favorite : CodeFavorite) : CodeFavorite :=
  if (Favorites.id favorite =? id)%Z
  then withDetails favorite name code urlPattern
  else favorite.

Definition removeFavorite (id : Z) (prev : CodeFavoritesStorage)
  : CodeFavoritesStorage :=
  {| nextId := nextId prev;
     favorites :=
       filter (fun favorite => negb (Favorites.id favorite =? id)%Z) (favorites prev) |}.

Definition incrementUseCount (id : Z) (prev : CodeFavoritesStorage)
  : CodeFavoritesStorage :=
  {| nextId := nextId prev;
     favorites :=
       map (fun favorite =>
              if (Favorites.id favorite =? id)%Z then
                {| id := Favorites.id favorite; name := name favorite;
                   code := code favorite; urlPattern := urlPattern favorite;
                   useCount := useCount favorite + 1;
                   createdAt := createdAt favorite |}
              else favorite)
           (favorites prev) |}.

Definition getFavoritesByUrl (url : string) (st : CodeFavoritesStorage)
  : list CodeFavorite :=
  filter (fun favorite => urlMatchesPattern url (urlPattern favorite)) (favorites st).

Definition getFavoriteById (id : Z) (st : CodeFavoritesStorage)
  : option CodeFavorite :=
  find (fun favorite => (Favorites.id favorite =? id)%Z) (favorites st).

End UrlMatching.

(** *** Histories of the store *)

Inductive Operation :=
| Add (name code urlPattern : string) (now : Z)
| Update (id : Z) (name code urlPattern : string)
| Remove (id : Z)
| Increment (id : Z).

Definition apply (op : Operation) (st : CodeFavoritesStorage)
  : CodeFavoritesStorage :=
  match op with
  | Add name code urlPattern now => fst (addFavorite name code urlPattern now st)
  | Update id name code urlPattern => fst (updateFavorite id name code urlPattern st)
  | Remove id => removeFavorite id st
  | Increment id => incrementUseCount id st
  end.

(** The state after the operations, oldest first. *)
Fixpoint run (ops : list Operation) (st : CodeFavoritesStorage)
  : CodeFavoritesStorage :=
  match ops with
  | [] => st
  | op :: rest => run rest (apply op st)
  end.

(** The identifiers handed out by the [Add] operations of a history, oldest
    first: the [id] of the record each [addFavorite] resolves to. *)
Fixpoint issued (ops : list Operation) (st : CodeFavoritesStorage) : list Z :=
  match ops with
  | [] => []
  | op :: rest =>
      match op with
      | Add name code urlPattern now =>
          match snd (addFavorite name code urlPattern now st) with
          | Some favorite => [id favorite]
          | None => []
          end
      | _ => []
      end ++ issued rest (apply op st)
  end.

(** The identifier-space invariant of a collection. *)
Definition WellFormed (st : CodeFavoritesStorage) : Prop :=
  Forall (fun favorite => (id favorite < nextId st)%Z) (favorites st) /\
  NoDup (map id (favorites st)).

(** The matching the wildcard step is meant to perform, in the words of the
    design: a literal character matches itself and [*] matches any
    substring, the pattern anchored at both ends. *)
Fixpoint wildcardMatches (pattern url : string) : bool :=
  match pattern with
  | EmptyString =>
      match url with
      | EmptyString => true
      | String _ _ => false
      end
  | String p pattern' =>
      if Ascii.eqb p "*" then
        (fix star (url : string) : bool :=
           wildcardMatches pattern' url ||
           match url with
           | EmptyString => false
           | String _ url' => star url'
           end) url
      else
        match url with
        | EmptyString => false
        | String c url' => Ascii.eqb p c && wildcardMatches pattern' url'
        end
  end.

(** What the compiled pattern stands for, one term per pattern character:
    a [*] has become [\.*], a run of dots. *)
Definition termOf (c : ascii) : Term :=
  if Ascii.eqb c "*" then TStar (AChar ".") else TOnce (AChar c).

(** A URL parser for strings of the plain shape [scheme://authority/...],
    with the origin [scheme://authority]; [None] for any other string.  It
    serves to run the matching on concrete addresses. *)
Definition plainOrigin (s : string) : option string :=
  match splitAtFirst "://" s with
  | None => None
  | Some (scheme, rest) =>
      let authority :=
        match splitAtFirst "/" rest with
        | Some (a, _) => a
        | None => rest
        end in
      if (scheme =? "") || (authority =? "") then None
      else Some (scheme ++ "://" ++ authority)
  end.

(** [{ ...favorite, useCount: favorite.useCount + 1 }]. *)
Definition used (favorite : CodeFavorite) : CodeFavorite :=
  {| id := id favorite; name := name favorite; code := code favorite;
     urlPattern := urlPattern favorite; useCount := useCount favorite + 1;
     createdAt := createdAt favorite |}.

(** *** Reading all favourites, most recent first *)

(** One step of sorting with the comparator
    [(a, b) => b.createdAt - a.createdAt]: [x] comes from before every
    element of [sorted] and stays before the first [y] with
    [compare(x, y) <= 0]. *)
Fixpoint insertByComparator (x : CodeFavorite) (sorted : list CodeFavorite)
  : list CodeFavorite :=
  match sorted with
  | [] => [x]
  | y :: rest =>
      if (createdAt y - createdAt x <=? 0)%Z then x :: y :: rest
      else y :: insertByComparator x rest
  end.

(** [[...favorites].sort(compare)]: [Array.prototype.sort] is stable and the
    comparator orders integers consistently, so the outcome is the stable
    sort whatever algorithm the engine runs; it is written here as an
    insertion sort. *)
Definition sortByComparator (favs : list CodeFavorite) : list CodeFavorite :=
  fold_right insertByComparator [] favs.

Definition getAllFavorites (st : CodeFavoritesStorage) : list CodeFavorite :=
  sortByComparator (favorites st).

(** The strings a pattern stands for in the wildcard step as the code
    compiles it: every character but [*] is itself, and a [*] is a run of
    dots. *)
Inductive DotRuns : string -> string -> Prop :=
| DR_done : DotRuns EmptyString EmptyString
| DR_char c pattern url :
    Ascii.eqb c "*" = false ->
    DotRuns pattern url -> DotRuns (String c pattern) (String c url)
| DR_star_none pattern url :
    DotRuns pattern url -> DotRuns (String "*" pattern) url
| DR_star_dot pattern url :
    DotRuns (String "*" pattern) url ->
    DotRuns (String "*" pattern) (String "." url).

End Favorites.

(* --------------------------------------------------------------------- *)
(** ** Settings shared by the Executor and the Navigator prompt *)
(* --------------------------------------------------------------------- *)

(** The two fields of [GeneralSettingsConfig] read by the code below. *)
Record GeneralSettingsConfig := mkSettings {
  allowCodeGeneration : bool;
  fastJsMode : bool
}.

(* --------------------------------------------------------------------- *)
(** ** The Navigator system prompt ([agent/prompts/navigator.ts]) *)
(* --------------------------------------------------------------------- *)

Module Navigator.

(** [n.toString()] for an integer [n] (plain decimal below [10^21]). *)
Definition toString (n : Z) : string := NilZero.string_of_int (Z.to_int n).

Definition codeExecutionSection : string :=
  "

13. Code Execution (CRITICAL - USE THIS FOR PAGE MANIPULATION):

- ***WHEN USER ASKS TO CHANGE/MODIFY THE PAGE (background, colors, styles, hide/show elements, etc.), YOU MUST USE execute_code ACTION IMMEDIATELY***
- DO NOT provide code examples, instructions, or explanations - EXECUTE THE CODE DIRECTLY using execute_code action
- The execute_code action runs JavaScript in the page context and can manipulate the DOM directly
- Example for " ++ dq ++
  "make background blue" ++ dq ++
  ": {" ++ dq ++
  "execute_code" ++ dq ++
  ": {" ++ dq ++
  "intent" ++ dq ++
  ": " ++ dq ++
  "Change page background to blue" ++ dq ++
  ", " ++ dq ++
  "code" ++ dq ++
  ": " ++ dq ++
  "() => { document.body.style.backgroundColor = 'blue'; return {success: true, output: 'Background changed to blue'}; }" ++ dq ++
  "}}
- Example for " ++ dq ++
  "hide element" ++ dq ++
  ": {" ++ dq ++
  "execute_code" ++ dq ++
  ": {" ++ dq ++
  "intent" ++ dq ++
  ": " ++ dq ++
  "Hide element" ++ dq ++
  ", " ++ dq ++
  "code" ++ dq ++
  ": " ++ dq ++
  "() => { document.querySelector('#element').style.display = 'none'; return {success: true}; }" ++ dq ++
  "}}
- The code you provide should be a function that returns an object with {success: boolean, output?: string, error?: string}
- For page manipulation tasks (change colors, modify styles, hide/show elements, etc.), ALWAYS use execute_code - never explain or show code examples
- The code runs in the page context and has full access to the DOM and page JavaScript
- If user asks to modify the page appearance or behavior, use execute_code immediately".

(** [this.generalSettings?.allowCodeGeneration] as a condition. *)
Definition codeGenerationAllowed (generalSettings : option GeneralSettingsConfig)
  : bool :=
  match generalSettings with
  | Some settings => allowCodeGeneration settings
  | None => false
  end.

Section Prompt.

(** The constant [navigatorSystemPromptTemplate] of [./templates/navigator]. *)
Variable navigatorSystemPromptTemplate : string.

(** The template formatted with [maxActionsPerStep]: its first
    [{{max_actions}}] replaced, then trimmed. *)
Definition formattedPrompt (maxActionsPerStep : Z) : string :=
  trim (replaceFirst navigatorSystemPromptTemplate "{{max_actions}}"
          (toString maxActionsPerStep)).

(** The constructor, returning the text of [systemMessage];
    [maxActionsPerStep] defaults to 10 when it is not given. *)
Definition NavigatorPrompt (maxActionsPerStep : option Z)
    (generalSettings : option GeneralSettingsConfig) : string :=
  let maxActions :=
    match maxActionsPerStep with
    | Some n => n
    | None => 10%Z
    end in
  if codeGenerationAllowed generalSettings
  then formattedPrompt maxActions ++ codeExecutionSection
  else formattedPrompt maxActions.

End Prompt.

End Navigator.

(* --------------------------------------------------------------------- *)
(** ** The Executor's step loop *)
(* --------------------------------------------------------------------- *)

Module Executor.

(** How a planning or an execution pass ends: it signals that the task is
    complete, it does not, or it fails. *)
Inductive PassResult := PassDone | PassContinue | PassFailed.

(** The Executor with its collaborators.  The task sequence is never empty;
    a pass is a function of the step counter at which it runs. *)
Record Executor := mkExecutor {
  firstTask : string;
  laterTasks : list string;
  generalSettings : option GeneralSettingsConfig;
  planner : option (nat -> PassResult);
  navigator : nat -> PassResult;
  cancelRequested : nat -> bool;
  planningInterval : nat;
  maxSteps : nat
}.

Inductive Terminal := Completed | Cancelled | Failed | MaxStepsReached.

(** An invocation of a collaborator, with the step counter at which it is
    made. *)
Inductive Call :=
| PlanningPass (nSteps : nat)
| ExecutionPass (nSteps : nat).

(** One iteration of the loop: the step counter and the flag it starts
    with, and the collaborators invoked during it, in order. *)
Record Iteration := mkIteration {
  stepNumber : nat;
  navigatorDoneBefore : bool;
  calls : list Call
}.

(** Modelled from the spec: [Executor.execute] is not among the sources;
    the current task is the last entry of the task sequence. *)
Definition currentTask (ex : Executor) : string :=
  last (laterTasks ex) (firstTask ex).

(** Modelled from the spec: [Executor.execute] is not among the sources;
    [fastJsModeEnabled = settings.fastJsMode AND settings.allowCodeGeneration],
    false when there are no settings. *)
Definition fastJsModeEnabled (ex : Executor) : bool :=
  match generalSettings ex with
  | Some settings => fastJsMode settings && allowCodeGeneration settings
  | None => false
  end.

(** Modelled from the spec: [nSteps % planningInterval === 0] of the
    Executor, which is not among the sources; the remainder by zero is NaN
    and equals nothing. *)
Definition isPlanningStep (nSteps interval : nat) : bool :=
  match interval with
  | O => false
  | S _ => (nSteps mod interval =? 0)%nat
  end.

Section Loop.

(** The task classifier, a pure function of the task text. *)
Variable isClientSideJsTask : string -> bool.

(** Modelled from the spec: [Executor.execute] is not among the sources;
    [jsOnlyForThisTask = fastJsModeEnabled AND isClientSideJsTask(currentTask)],
    computed during setup. *)
Definition jsOnlyForThisTask (ex : Executor) : bool :=
  fastJsModeEnabled ex && isClientSideJsTask (currentTask ex).

(** Modelled from the spec: the planner condition of [Executor.execute],
    which is not among the sources: a planner is configured, the task is
    not JS-only, and the step counter is a multiple of the planning
    interval or the previous execution pass signalled completion. *)
Definition shouldRunPlanner (ex : Executor) (jsOnly : bool)
    (nSteps : nat) (navigatorDone : bool) : bool :=
  match planner ex with
  | Some _ => negb jsOnly && (isPlanningStep nSteps (planningInterval ex) || navigatorDone)
  | None => false
  end.

(** Modelled from the spec: the planning pass of the Executor, which is not
    among the sources: invoking it is what adds [PlanningPass] to the
    calls made so far; without a planner the invocation fails. *)
Definition runPlanner (ex : Executor) (nSteps : nat) (made : list Call)
  : PassResult * list Call :=
  (match planner ex with
   | Some plan => plan nSteps
   | None => PassFailed
   end,
   (made ++ [PlanningPass nSteps])%list).

(** Modelled from the spec: the execution pass of the Executor, which is
    not among the sources: invoking it is what adds [ExecutionPass] to the
    calls made so far. *)
Definition navigate (ex : Executor) (nSteps : nat) (made : list Call)
  : PassResult * list Call :=
  (navigator ex nSteps, (made ++ [ExecutionPass nSteps])%list).

(** Modelled from the spec: the step loop of [Executor.execute], which is
    not among the sources, after section 4.4: the step counter is
    incremented before any work; the planning pass is invoked when
    [shouldRunPlanner] says so and ends the loop when its output signals
    completion; otherwise the execution pass is invoked and ends the loop
    when it reports completion; then cancellation is observed; the loop
    stops after [maxSteps] iterations.  A failing pass ends the loop in
    [Failed].  [jsOnly] is an argument of the loop: it is never
    recomputed.  The calls of an iteration are those the two invocations
    add, nothing is written from the decision. *)
Fixpoint stepLoop (ex : Executor) (jsOnly : bool) (remaining nSteps : nat)
    (navigatorDone : bool) : Terminal * list Iteration :=
  match remaining with
  | O => (MaxStepsReached, [])
  | S remaining' =>
      let n := S nSteps in
      let (planning, planned) :=
        if shouldRunPlanner ex jsOnly n navigatorDone
        then runPlanner ex n []
        else (PassContinue, []) in
      match planning with
      | PassFailed => (Failed, [mkIteration n navigatorDone planned])
      | PassDone => (Completed, [mkIteration n navigatorDone planned])
      | PassContinue =>
          let (execution, made) := navigate ex n planned in
          match execution with
          | PassFailed => (Failed, [mkIteration n navigatorDone made])
          | PassDone => (Completed, [mkIteration n navigatorDone made])
          | PassContinue =>
              if cancelRequested ex n
              then (Cancelled, [mkIteration n navigatorDone made])
              else
                let (terminal, later) := stepLoop ex jsOnly remaining' n false in
                (terminal, mkIteration n navigatorDone made :: later)
          end
      end
  end.

(** Modelled from the spec: [Executor.execute], which is not among the
    sources: the setup computes [jsOnlyForThisTask] once, then the loop
    starts with the step counter at 0. *)
Definition execute (ex : Executor) : Terminal * list Iteration :=
  stepLoop ex (jsOnlyForThisTask ex) (maxSteps ex) 0 false.

(** The planner condition, as a proposition about one iteration. *)
Definition PlannerCondition (ex : Executor) (it : Iteration) : Prop :=
  planner ex <> None
  /\ jsOnlyForThisTask ex = false
  /\ (Nat.divide (planningInterval ex) (stepNumber it)
      \/ navigatorDoneBefore it = true).

End Loop.

(** The same Executor with another planner, or none. *)
Definition withPlanner (plan : option (nat -> PassResult)) (ex : Executor)
  : Executor :=
  {| firstTask := firstTask ex; laterTasks := laterTasks ex;
     generalSettings := generalSettings ex; planner := plan;
     navigator := navigator ex; cancelRequested := cancelRequested ex;
     planningInterval := planningInterval ex; maxSteps := maxSteps ex |}.

(** The same Executor with other settings. *)
Definition withSettings (settings : option GeneralSettingsConfig) (ex : Executor)
  : Executor :=
  {| firstTask := firstTask ex; laterTasks := laterTasks ex;
     generalSettings := settings; planner := planner ex;
     navigator := navigator ex; cancelRequested := cancelRequested ex;
     planningInterval := planningInterval ex; maxSteps := maxSteps ex |}.

End Executor.

(* --------------------------------------------------------------------- *)
(** ** The favourites panel ([CodeFavoritesPanel.tsx]) *)
(* --------------------------------------------------------------------- *)

Module Panel.
Import Favorites.

Section WithOrigin.

Variable origin : string -> option string.

(** [loadFavorites]: the favourites for the current address, or all of them
    when there is no address ([null] and the empty string are falsy). *)
Definition loadFavorites (currentUrl : option string) (st : CodeFavoritesStorage)
  : list CodeFavorite :=
  match currentUrl with
  | Some url =>
      if negb (url =? "") then getFavoritesByUrl origin url st
      else getAllFavorites st
  | None => getAllFavorites st
  end.

(** [handleExecute]: the use count is incremented in the store, the code of
    the clicked favourite is handed to [onExecuteFavorite], and the list is
    loaded again.  The result is the new store, the code executed and the
    list shown. *)
Definition handleExecute (currentUrl : option string) (favorite : CodeFavorite)
    (st : CodeFavoritesStorage)
  : CodeFavoritesStorage * string * list CodeFavorite :=
  let st' := incrementUseCount (id favorite) st in
  (st', code favorite, loadFavorites currentUrl st').

(** [handleDelete]: after the user confirms, the favourite is removed and
    the list loaded again; otherwise nothing happens and the list shown
    stays [shown]. *)
Definition handleDelete (currentUrl : option string) (id : Z) (confirmed : bool)
    (shown : list CodeFavorite) (st : CodeFavoritesStorage)
  : CodeFavoritesStorage * list CodeFavorite :=
  if confirmed then
    let st' := removeFavorite id st in
    (st', loadFavorites currentUrl st')
  else (st, shown).

End WithOrigin.

(** The [Set<number>] of expanded identifiers, as its elements in insertion
    order. *)
Definition has (ids : list Z) (id : Z) : bool := existsb (Z.eqb id) ids.

(** [toggleExpand]: a copy of the set with [id] deleted when it was there
    and added (at the end) when it was not. *)
Definition toggleExpand (id : Z) (prev : list Z) : list Z :=
  if has prev id then filter (fun other => negb (other =? id)%Z) prev
  else (prev ++ [id])%list.

End Panel.

(* ===================================================================== *)
(** * Part II: properties *)
(* ===================================================================== *)

(** ** Strings *)

Lemma append_nil_r (s : string) : s ++ "" = s.
Proof. induction s as [|c s IH]; simpl; [reflexivity | now rewrite IH]. Qed.

Lemma append_assoc (a b c : string) : (a ++ b) ++ c = a ++ b ++ c.
Proof. induction a as [|x a IH]; simpl; [reflexivity | now rewrite IH]. Qed.

Lemma length_append (a b : string) :
  String.length (a ++ b) = String.length a + String.length b.
Proof. induction a as [|x a IH]; simpl; [reflexivity | now rewrite IH]. Qed.

Lemma append_inv_head (a b c : string) : a ++ b = a ++ c -> b = c.
Proof.
  induction a as [|x a IH]; simpl; intros H; [exact H|].
  injection H as H. now apply IH.
Qed.

Lemma prefix_cons (a b : ascii) (p s : string) :
  prefix (String a p) (String b s) = Ascii.eqb a b && prefix p s.
Proof.
  simpl. destruct (ascii_dec a b) as [->|Hne].
  - now rewrite Ascii.eqb_refl.
  - apply Ascii.eqb_neq in Hne. now rewrite Hne.
Qed.

Lemma prefix_nil (s : string) : prefix "" s = true.
Proof. now destruct s. Qed.

Lemma prefix_append (p r : string) : prefix p (p ++ r) = true.
Proof.
  induction p as [|a p IH]; simpl append.
  - apply prefix_nil.
  - now rewrite prefix_cons, Ascii.eqb_refl, IH.
Qed.

Lemma prefix_true (p s : string) :
  prefix p s = true <-> exists r, s = p ++ r.
Proof.
  split.
  - revert s. induction p as [|a p IH]; intros s H.
    + now exists s.
    + destruct s as [|b s]; [discriminate|].
      rewrite prefix_cons in H. apply andb_true_iff in H as [Hab Hp].
      apply Ascii.eqb_eq in Hab as ->.
      destruct (IH _ Hp) as [r ->]. now exists r.
  - intros [r ->]. apply prefix_append.
Qed.

Lemma drop_append (p r : string) : drop (String.length p) (p ++ r) = r.
Proof. induction p as [|a p IH]; simpl; [now destruct r | exact IH]. Qed.

Lemma splitAtFirst_sound (p s before after : string) :
  splitAtFirst p s = Some (before, after) -> s = before ++ p ++ after.
Proof.
  revert before after. induction s as [|c s IH]; intros before after H.
  - simpl in H. destruct p; [|discriminate].
    injection H as <- <-. reflexivity.
  - cbn [splitAtFirst] in H. destruct (prefix p (String c s)) eqn:Hp.
    + injection H as <- <-. apply prefix_true in Hp as [r Hr].
      rewrite Hr, drop_append. reflexivity.
    + destruct (splitAtFirst p s) as [[b a]|] eqn:Hs; [|discriminate].
      injection H as <- <-. simpl. f_equal. now apply IH.
Qed.

Lemma splitAtFirst_none (p s : string) :
  splitAtFirst p s = None <-> includes s p = false.
Proof.
  induction s as [|c s IH]; cbn [splitAtFirst includes].
  - destruct (prefix p "");
      [split; discriminate | split; reflexivity].
  - destruct (prefix p (String c s)); simpl orb.
    + split; discriminate.
    + rewrite <- IH. destruct (splitAtFirst p s) as [[b a]|].
      * split; discriminate.
      * split; reflexivity.
Qed.

Lemma includes_occurs (s p : string) :
  includes s p = true <-> Occurs p s.
Proof.
  split.
  - intros H. destruct (splitAtFirst p s) as [[b a]|] eqn:Hs.
    + exists b, a. now apply splitAtFirst_sound.
    + apply splitAtFirst_none in Hs. congruence.
  - intros [b [a ->]]. induction b as [|c b IH].
    + simpl append.
      destruct (p ++ a) eqn:E; cbn [includes];
        rewrite <- E, prefix_append; reflexivity.
    + simpl append. cbn [includes]. rewrite IH. apply orb_true_r.
Qed.

(** A pattern whose first character does not occur again in it cannot
    straddle the seam between a text and a following copy of itself. *)
Lemma prefix_stops_before (a : ascii) (q t x : string) :
  includes q (String a "") = false ->
  prefix q (t ++ String a x) = true -> prefix q t = true.
Proof.
  revert t. induction q as [|b q IH]; intros t Hfresh H.
  - apply prefix_nil.
  - cbn [includes] in Hfresh. apply orb_false_iff in Hfresh as [Hb Hq].
    rewrite prefix_cons, prefix_nil, andb_true_r in Hb.
    destruct t as [|c t]; simpl append in H; rewrite prefix_cons in H;
      apply andb_true_iff in H as [Hc Hp].
    + apply Ascii.eqb_eq in Hc as ->. now rewrite Ascii.eqb_refl in Hb.
    + rewrite prefix_cons, Hc. simpl. now apply IH.
Qed.

Lemma splitAtFirst_fresh (a : ascii) (q t r : string) :
  includes q (String a "") = false ->
  includes t (String a q) = false ->
  splitAtFirst (String a q) (t ++ String a q ++ r) = Some (t, r).
Proof.
  intros Hfresh. induction t as [|c t IH]; intros Hno.
  - change ("" ++ String a q ++ r) with (String a q ++ r).
    destruct (String a q ++ r) eqn:E; cbn [splitAtFirst];
      rewrite <- E, prefix_append, drop_append; reflexivity.
  - cbn [includes] in Hno. apply orb_false_iff in Hno as [Hp Hno].
    simpl append. cbn [splitAtFirst].
    destruct (prefix (String a q) (String c (t ++ String a (q ++ r)))) eqn:E.
    + rewrite prefix_cons in E. apply andb_true_iff in E as [Hac E].
      apply prefix_stops_before in E; [|exact Hfresh].
      rewrite prefix_cons, Hac, E in Hp. discriminate.
    + change (String a (q ++ r)) with (String a q ++ r).
      now rewrite (IH Hno).
Qed.

Lemma includes_append_l (a b p : string) :
  includes a p = true -> includes (a ++ b) p = true.
Proof.
  rewrite !includes_occurs. intros [before [after ->]].
  exists before, (after ++ b). now rewrite !append_assoc.
Qed.

Lemma trimStart_fixed (c : ascii) (s : string) :
  isWhiteSpace c = false -> trimStart (String c s) = String c s.
Proof. intros H. simpl. now rewrite H. Qed.

(* --------------------------------------------------------------------- *)
(** ** The provenance block *)
(* --------------------------------------------------------------------- *)

Module CodecFacts.
Import Codec.

Lemma findBlock_sound (s before inner after : string) :
  findBlock s = Some (before, inner, after) ->
  s = before ++ startMarker ++ inner ++ endMarker ++ after.
Proof.
  unfold findBlock. intros H.
  destruct (splitAtFirst startMarker s) as [[b rest]|] eqn:Hs; [|discriminate].
  destruct (splitAtFirst endMarker rest) as [[i a]|] eqn:He; [|discriminate].
  injection H as <- <- <-.
  apply splitAtFirst_sound in Hs, He. now rewrite Hs, He.
Qed.

Lemma findBlock_shorter (s before inner after : string) :
  findBlock s = Some (before, inner, after) ->
  String.length after < String.length s.
Proof.
  intros H. apply findBlock_sound in H. rewrite H.
  rewrite !length_append. unfold startMarker. simpl String.length. lia.
Qed.

(** The first block of an encoded message is the appended one, as long as
    the outcome text holds no start marker and the code no end marker. *)
Lemma findBlock_encode (outcomeText code : string) :
  includes outcomeText startMarker = false ->
  includes code endMarker = false ->
  findBlock (encode outcomeText code) = Some (outcomeText, code, "").
Proof.
  intros Ht Hc. unfold findBlock, encode.
  unfold startMarker at 1 2.
  rewrite splitAtFirst_fresh; [|reflexivity|exact Ht].
  rewrite <- (append_nil_r endMarker) at 2.
  unfold endMarker at 1 2.
  rewrite splitAtFirst_fresh; [reflexivity|reflexivity|exact Hc].
Qed.

Lemma codeMatch_encode (outcomeText code : string) :
  includes outcomeText startMarker = false ->
  includes code endMarker = false ->
  codeMatch (encode outcomeText code) = Some code.
Proof.
  intros Ht Hc. unfold codeMatch. now rewrite findBlock_encode.
Qed.

(** In [MessageBlock], a message that reads like an execution outcome and
    comes without code from the parent yields the code of its block. *)
Lemma codeToSave_encode (outcomeText code : string) :
  hasCodeExecutedText outcomeText = true ->
  includes outcomeText startMarker = false ->
  includes code endMarker = false ->
  codeToSave None (encode outcomeText code) = Some code.
Proof.
  intros Hphrase Ht Hc. unfold codeToSave. cbn [truthy negb andb].
  assert (Hhas : hasCodeExecutedText (encode outcomeText code) = true).
  { unfold hasCodeExecutedText, encode in *.
    rewrite !orb_true_iff in *.
    destruct Hphrase as [[H|H]|H];
      [left; left | left; right | right]; now apply includes_append_l. }
  now rewrite Hhas, codeMatch_encode.
Qed.

(** Decoding never raises: without a complete block the result is absent. *)
Lemma codeMatch_none (content : string) :
  includes content startMarker = false -> codeMatch content = None.
Proof.
  intros H. apply splitAtFirst_none in H.
  unfold codeMatch, findBlock. now rewrite H.
Qed.

Lemma BlocksRemoved_refl (s : string) : BlocksRemoved s s.
Proof. induction s; constructor; assumption. Qed.

Lemma BlocksRemoved_skip (before s r : string) :
  BlocksRemoved s r -> BlocksRemoved (before ++ s) (before ++ r).
Proof. intros H. induction before; simpl; [exact H | now constructor]. Qed.

Lemma stripBlocks_removes (fuel : nat) (s : string) :
  BlocksRemoved s (stripBlocks fuel s).
Proof.
  revert s. induction fuel as [|fuel IH]; intros s; simpl.
  - apply BlocksRemoved_refl.
  - destruct (findBlock s) as [[[before inner] after]|] eqn:H.
    + rewrite (findBlock_sound _ _ _ _ H).
      apply BlocksRemoved_skip, BR_block, IH.
    + apply BlocksRemoved_refl.
Qed.

(** The fuel of [displayContent] is enough: more fuel changes nothing. *)
Lemma stripBlocks_fuel (fuel : nat) (s : string) :
  String.length s <= fuel -> stripBlocks fuel s = displayContent s.
Proof.
  unfold displayContent.
  remember (String.length s) as n eqn:Hn.
  revert s Hn fuel. induction n as [n IH] using lt_wf_ind. intros s Hn fuel Hle.
  destruct fuel as [|fuel], n as [|n]; try reflexivity; try lia.
  - simpl. destruct (findBlock s) as [[[b i] a]|] eqn:H; [|reflexivity].
    apply findBlock_shorter in H. lia.
  - simpl. destruct (findBlock s) as [[[b i] a]|] eqn:H; [|reflexivity].
    f_equal. apply findBlock_shorter in H.
    rewrite (IH (String.length a)) by lia.
    symmetry. apply (IH (String.length a)); lia.
Qed.

Lemma displayContent_step (s before inner after : string) :
  findBlock s = Some (before, inner, after) ->
  displayContent s = before ++ displayContent after.
Proof.
  intros H. unfold displayContent at 1.
  destruct (String.length s) as [|n] eqn:Hn.
  - apply findBlock_shorter in H. lia.
  - simpl. rewrite H. f_equal. apply stripBlocks_fuel.
    apply findBlock_shorter in H. lia.
Qed.

Lemma displayContent_fixed (s : string) :
  findBlock s = None -> displayContent s = s.
Proof.
  intros H. unfold displayContent.
  destruct (String.length s); simpl; [reflexivity | now rewrite H].
Qed.

Lemma codeMatch_findBlock (s : string) :
  codeMatch s = None <-> findBlock s = None.
Proof.
  unfold codeMatch. destruct (findBlock s) as [[[b i] a]|]; split;
    intros; congruence.
Qed.

Lemma displayContent_encode (outcomeText code : string) :
  includes outcomeText startMarker = false ->
  includes code endMarker = false ->
  displayContent (encode outcomeText code) = outcomeText.
Proof.
  intros Ht Hc.
  rewrite (displayContent_step _ _ _ _ (findBlock_encode _ _ Ht Hc)).
  rewrite displayContent_fixed by reflexivity. apply append_nil_r.
Qed.

(** C2 (as stated, refuted): when the executed code itself contains the end
    marker, or the outcome text contains a start marker, decoding the
    encoded message does not return the code. *)
Lemma roundtrip_breaks_on_embedded_marker :
  codeMatch (failureMessage englishLocale "boom" "a</nano_executed_code>b")
    = Some "a"
  /\ codeMatch (failureMessage englishLocale "boom" "a</nano_executed_code>b")
       <> Some "a</nano_executed_code>b"
  /\ codeMatch (successMessage englishLocale "<nano_executed_code>" "f()")
       = Some "<nano_executed_code>f()"
  /\ codeMatch (successMessage englishLocale "<nano_executed_code>" "f()")
       <> Some "f()".
Proof. repeat split; try reflexivity; vm_compute; discriminate. Qed.

(** C2 (amended): on each of the three outcome branches the message is the
    outcome text followed by the start marker, the code verbatim and the
    end marker; and whenever the outcome text contains no start marker and
    the code contains no end marker, decoding the message returns exactly
    the code. *)
Theorem encode_decode_roundtrip
    (t : MessageKey -> list string -> string)
    (outputStr error message codeString : string)
    (Hok : includes (t act_executeCode_ok [outputStr]) startMarker = false)
    (Hfailed : includes (t act_executeCode_failed [error]) startMarker = false)
    (Herror : includes (t act_executeCode_error [message]) startMarker = false)
    (Hcode : includes codeString endMarker = false) :
  (successMessage t outputStr codeString
     = t act_executeCode_ok [outputStr] ++ startMarker ++ codeString ++ endMarker
   /\ codeMatch (successMessage t outputStr codeString) = Some codeString)
  /\ (failureMessage t error codeString
        = t act_executeCode_failed [error] ++ startMarker ++ codeString ++ endMarker
      /\ codeMatch (failureMessage t error codeString) = Some codeString)
  /\ (errorMessage t message codeString
        = t act_executeCode_error [message] ++ startMarker ++ codeString ++ endMarker
      /\ codeMatch (errorMessage t message codeString) = Some codeString).
Proof.
  unfold successMessage, failureMessage, errorMessage.
  repeat split; try reflexivity; now apply codeMatch_encode.
Qed.

Lemma encode_decode_roundtrip_witness :
  codeMatch (successMessage englishLocale "Background changed to blue"
               "() => { document.body.style.backgroundColor = 'blue'; }")
    = Some "() => { document.body.style.backgroundColor = 'blue'; }"
  /\ codeMatch (failureMessage englishLocale "body is null"
                  "() => { document.body.style.backgroundColor = 'blue'; }")
       = Some "() => { document.body.style.backgroundColor = 'blue'; }"
  /\ codeMatch (errorMessage englishLocale "Unexpected token"
                  "() => { document.body.style.backgroundColor = 'blue'; }")
       = Some "() => { document.body.style.backgroundColor = 'blue'; }".
Proof.
  destruct (encode_decode_roundtrip englishLocale
              "Background changed to blue" "body is null" "Unexpected token"
              "() => { document.body.style.backgroundColor = 'blue'; }"
              eq_refl eq_refl eq_refl eq_refl)
    as [[_ Hok] [[_ Hfailed] [_ Herror]]].
  exact (conj Hok (conj Hfailed Herror)).
Defined.

Lemma BlocksRemoved_length (s r : string) :
  BlocksRemoved s r -> String.length r <= String.length s.
Proof.
  induction 1 as [|c s r _ IH|inner s r _ IH].
  - reflexivity.
  - simpl. lia.
  - rewrite !length_append. lia.
Qed.

Lemma displayContent_moves (s : string) :
  findBlock s <> None -> displayContent s <> s.
Proof.
  intros H E. destruct (findBlock s) as [[[before inner] after]|] eqn:Hb;
    [clear H | now apply H].
  pose proof (displayContent_step _ _ _ _ Hb) as Hstep.
  pose proof (BlocksRemoved_length _ _ (stripBlocks_removes (String.length after) after)) as Hlen.
  fold (displayContent after) in Hlen.
  apply findBlock_sound in Hb.
  assert (Hl : String.length (before ++ displayContent after) = String.length s)
    by now rewrite <- Hstep, E.
  clear E Hstep. subst s.
  rewrite !length_append in Hl. unfold startMarker in Hl.
  simpl String.length in Hl. lia.
Qed.

(** C4 (as stated, refuted): removing a block can join the text around it
    into a new block, which a second pass then removes. *)
Lemma displayContent_not_idempotent :
  displayContent
    "<nano_<nano_executed_code>x</nano_executed_code>executed_code>y</nano_executed_code>"
    = "<nano_executed_code>y</nano_executed_code>"
  /\ displayContent
       (displayContent
          "<nano_<nano_executed_code>x</nano_executed_code>executed_code>y</nano_executed_code>")
       = ""
  /\ displayContent
       (displayContent
          "<nano_<nano_executed_code>x</nano_executed_code>executed_code>y</nano_executed_code>")
     <> displayContent
          "<nano_<nano_executed_code>x</nano_executed_code>executed_code>y</nano_executed_code>".
Proof.
  split; [vm_compute; reflexivity|].
  split; [vm_compute; reflexivity|].
  vm_compute. discriminate.
Qed.

(** C4 (amended): for every content [s], the displayed text is [s] with
    whole delimited blocks (markers included) removed and every other
    character kept in order; stripping again changes nothing exactly when
    the displayed text holds no complete block; and for an encoded message
    whose outcome text holds no start marker and whose code holds no end
    marker the displayed text is the outcome text, on which stripping is
    idempotent. *)
Theorem displayContent_frame_and_idempotence :
  (forall s, BlocksRemoved s (displayContent s))
  /\ (forall s,
        displayContent (displayContent s) = displayContent s
        <-> codeMatch (displayContent s) = None)
  /\ (forall outcomeText code,
        includes outcomeText startMarker = false ->
        includes code endMarker = false ->
        displayContent (encode outcomeText code) = outcomeText
        /\ displayContent (displayContent (encode outcomeText code))
             = displayContent (encode outcomeText code)).
Proof.
  split; [|split].
  - intros s. apply stripBlocks_removes.
  - intros s. rewrite codeMatch_findBlock. split.
    + intros E. destruct (findBlock (displayContent s)) eqn:Hb; [|reflexivity].
      exfalso. apply (displayContent_moves (displayContent s)); [|exact E].
      now rewrite Hb.
    + apply displayContent_fixed.
  - intros outcomeText code Ht Hc.
    rewrite (displayContent_encode _ _ Ht Hc). split; [reflexivity|].
    apply displayContent_fixed. apply codeMatch_findBlock.
    now apply codeMatch_none.
Qed.

Lemma displayContent_frame_and_idempotence_witness :
  displayContent
    (encode "Code executed successfully. Output: done" "() => document.title")
    = "Code executed successfully. Output: done"
  /\ displayContent
       (displayContent
          (encode "Code executed successfully. Output: done" "() => document.title"))
     = displayContent
         (encode "Code executed successfully. Output: done" "() => document.title").
Proof.
  exact (proj2 (proj2 displayContent_frame_and_idempotence)
           "Code executed successfully. Output: done" "() => document.title"
           eq_refl eq_refl).
Defined.

(** C5: the outcome-detection predicate is true exactly for the contents in
    which one of the three phrasings occurs: the success phrasing, the
    failure phrasing or the error phrasing; so it is true for a message of
    each kind and false for a message that holds none of them. *)
Theorem hasCodeExecutedText_detects (content : string) :
  (hasCodeExecutedText content = true
   <-> Occurs "Code executed" content
       \/ Occurs "Code execution failed" content
       \/ Occurs "Error executing code" content)
  /\ (hasCodeExecutedText content = false
      <-> ~ Occurs "Code executed" content
          /\ ~ Occurs "Code execution failed" content
          /\ ~ Occurs "Error executing code" content)
  /\ hasCodeExecutedText "Code executed successfully. Output: done" = true
  /\ hasCodeExecutedText "Code execution failed: x is not defined" = true
  /\ hasCodeExecutedText "Error executing code: Unexpected token" = true
  /\ hasCodeExecutedText "Navigating to https://example.com" = false.
Proof.
  assert (Hiff : hasCodeExecutedText content = true
                 <-> Occurs "Code executed" content
                     \/ Occurs "Code execution failed" content
                     \/ Occurs "Error executing code" content).
  { unfold hasCodeExecutedText.
    rewrite !orb_true_iff, !includes_occurs. tauto. }
  split; [exact Hiff|].
  split; [|repeat split].
  rewrite <- not_true_iff_false, Hiff. tauto.
Qed.

End CodecFacts.

(* --------------------------------------------------------------------- *)
(** ** URL-pattern matching *)
(* --------------------------------------------------------------------- *)

Module MatchingFacts.
Import Favorites.

(** *** The regular expression built from a pattern *)

Lemma not_syntax (c : ascii) :
  isSyntaxCharacter c = false ->
  Ascii.eqb c "^" = false /\ Ascii.eqb c "$" = false /\ Ascii.eqb c "\" = false
  /\ Ascii.eqb c "." = false /\ Ascii.eqb c "*" = false.
Proof.
  unfold isSyntaxCharacter. simpl existsb. intros H.
  repeat (apply orb_false_iff in H; destruct H as [? H]).
  repeat split; assumption.
Qed.

Lemma patternRegex_cons (c : ascii) (p : string) :
  patternRegex (String c p) =
  (if Ascii.eqb c "*" then "\.*"
   else if isSyntaxCharacter c then String "\" (String c "")
   else String c "") ++ patternRegex p.
Proof.
  unfold patternRegex. cbn [escapeSyntax].
  destruct (isSyntaxCharacter c) eqn:Hs.
  - cbn [replaceStars]. change (Ascii.eqb "\" "*") with false. cbv iota.
    destruct (Ascii.eqb c "*") eqn:Hstar.
    + apply Ascii.eqb_eq in Hstar. subst c. reflexivity.
    + reflexivity.
  - destruct (not_syntax _ Hs) as (_ & _ & _ & _ & Hstar).
    cbn [replaceStars]. rewrite Hstar. reflexivity.
Qed.

(** The text that follows an atom of a compiled pattern never starts with a
    quantifier. *)
Lemma patternRegex_head (p : string) :
  exists h rest, patternRegex p ++ "$" = String h rest /\ Ascii.eqb h "*" = false.
Proof.
  destruct p as [|c p].
  - exists "$"%char, "". split; reflexivity.
  - rewrite patternRegex_cons. destruct (Ascii.eqb c "*") eqn:Hstar.
    + eexists _, _. split; [reflexivity|reflexivity].
    + destruct (isSyntaxCharacter c).
      * eexists _, _. split; [reflexivity|reflexivity].
      * eexists _, _. split; [reflexivity|exact Hstar].
Qed.

Lemma parseTerms_patternRegex (p : string) :
  parseTerms (patternRegex p ++ "$")
  = Some (map termOf (list_ascii_of_string p) ++ [TEnd])%list.
Proof.
  induction p as [|c p IH].
  - reflexivity.
  - rewrite patternRegex_cons, append_assoc. cbn [list_ascii_of_string map].
    destruct (patternRegex_head p) as (h & rest & Hrest & Hh).
    unfold termOf at 1.
    destruct (Ascii.eqb c "*") eqn:Hstar.
    + change ("\.*" ++ patternRegex p ++ "$")
        with (String "\" (String "." (String "*" (patternRegex p ++ "$")))).
      cbn. now rewrite IH.
    + destruct (isSyntaxCharacter c) eqn:Hs.
      * change ((String "\" (String c "")) ++ patternRegex p ++ "$")
          with (String "\" (String c (patternRegex p ++ "$"))).
        cbn [parseTerms]. change (Ascii.eqb "\" "^") with false.
        change (Ascii.eqb "\" "$") with false.
        change (Ascii.eqb "\" "\") with true. cbv iota.
        rewrite Hs, Hrest, Hh, <- Hrest, IH. reflexivity.
      * destruct (not_syntax _ Hs) as (H1 & H2 & H3 & H4 & _).
        change (String c "" ++ patternRegex p ++ "$")
          with (String c (patternRegex p ++ "$")).
        cbn [parseTerms]. rewrite H1, H2, H3, H4, Hs. cbn [andb].
        rewrite Hrest, Hh, <- Hrest, IH. reflexivity.
Qed.

(** Every pattern compiles: the [RegExp] constructor of [urlMatchesPattern]
    never throws. *)
Lemma newRegExp_patternRegex (pattern : string) :
  newRegExp ("^" ++ patternRegex pattern ++ "$")
  = inr (TStart :: map termOf (list_ascii_of_string pattern) ++ [TEnd])%list.
Proof.
  unfold newRegExp.
  change ("^" ++ patternRegex pattern ++ "$")
    with (String "^" (patternRegex pattern ++ "$")).
  cbn [parseTerms]. change (Ascii.eqb "^" "^") with true. cbv iota.
  rewrite parseTerms_patternRegex. reflexivity.
Qed.

Lemma search_anchored (ts : list Term) (s : string) :
  search (TStart :: ts) false s = false.
Proof. induction s as [|c s IH]; simpl; [reflexivity | exact IH]. Qed.

Lemma test_anchored (ts : list Term) (s : string) :
  test (TStart :: ts) s = matchHere ts true s.
Proof.
  unfold test. destruct s as [|c s]; cbn [search matchHere andb].
  - apply orb_false_r.
  - rewrite search_anchored. apply orb_false_r.
Qed.

(** A pattern without [*] compiles to a literal: it matches itself only. *)
Lemma matchHere_literal (p url : string) (atStart : bool) :
  includes p "*" = false ->
  matchHere (map termOf (list_ascii_of_string p) ++ [TEnd])%list atStart url
  = (url =? p).
Proof.
  revert url atStart. induction p as [|c p IH]; intros url atStart Hno.
  - destruct url; reflexivity.
  - cbn [includes] in Hno. apply orb_false_iff in Hno as [Hc Hno].
    rewrite prefix_cons, prefix_nil, andb_true_r in Hc.
    rewrite Ascii.eqb_sym in Hc.
    cbn [list_ascii_of_string map app]. unfold termOf at 1. rewrite Hc.
    destruct url as [|d url]; cbn [matchHere atomMatches String.eqb].
    + reflexivity.
    + rewrite (IH url false Hno). rewrite (Ascii.eqb_sym d c).
      destruct (Ascii.eqb c d); reflexivity.
Qed.

Section WithOrigin.

Variable origin : string -> option string.

(** What the [try] block computes once both strings parse and neither the
    strings nor their origins are equal. *)
Lemma tryMatch_regex (url pattern ou op : string) :
  origin url = Some ou -> origin pattern = Some op ->
  (url =? pattern) = false -> (ou =? op) = false ->
  tryMatch origin url pattern
  = inr (matchHere (map termOf (list_ascii_of_string pattern) ++ [TEnd])%list true url).
Proof.
  intros Hu Hp Hne Ho. unfold tryMatch, newURL. rewrite Hu, Hp. cbn.
  rewrite Hne, Ho.
  change (String "^" (patternRegex pattern ++ "$"))
    with ("^" ++ patternRegex pattern ++ "$").
  rewrite newRegExp_patternRegex, test_anchored. reflexivity.
Qed.

Lemma tryMatch_throws (url pattern : string) :
  origin url = None \/ origin pattern = None ->
  tryMatch origin url pattern = inl TypeError.
Proof.
  unfold tryMatch, newURL. intros [H|H]; rewrite H.
  - reflexivity.
  - destruct (origin url); reflexivity.
Qed.

Lemma tryMatch_returns_or_type_error (url pattern : string) :
  (exists b, tryMatch origin url pattern = inr b)
  \/ tryMatch origin url pattern = inl TypeError.
Proof.
  destruct (origin url) as [ou|] eqn:Hu;
    [|right; apply tryMatch_throws; now left].
  destruct (origin pattern) as [op|] eqn:Hp;
    [|right; apply tryMatch_throws; now right].
  left. unfold tryMatch, newURL. rewrite Hu, Hp. cbn.
  destruct (url =? pattern); [now eexists|].
  destruct (ou =? op); [now eexists|].
  change (String "^" (patternRegex pattern ++ "$"))
    with ("^" ++ patternRegex pattern ++ "$").
  rewrite newRegExp_patternRegex. now eexists.
Qed.

Lemma urlMatchesPatternC_agrees (url pattern : string) :
  urlMatchesPatternC origin url pattern = inr (urlMatchesPattern origin url pattern).
Proof.
  unfold urlMatchesPatternC, urlMatchesPattern.
  destruct (tryMatch origin url pattern); reflexivity.
Qed.

End WithOrigin.

Lemma urlMatchesPattern_same_origin (origin : string -> option string)
    (url pattern o : string) :
  origin url = Some o -> origin pattern = Some o ->
  urlMatchesPattern origin url pattern = true.
Proof.
  intros Hu Hp. unfold urlMatchesPattern, tryMatch, newURL. rewrite Hu, Hp. cbn.
  destruct (url =? pattern); [reflexivity|].
  now rewrite String.eqb_refl.
Qed.

Lemma urlMatchesPattern_other_origin_literal (origin : string -> option string)
    (url pattern ou op : string) :
  origin url = Some ou -> origin pattern = Some op -> ou <> op ->
  includes pattern "*" = false ->
  urlMatchesPattern origin url pattern = false.
Proof.
  intros Hu Hp Hne Hno.
  assert (Hup : (url =? pattern) = false).
  { apply String.eqb_neq. intros ->. congruence. }
  apply String.eqb_neq in Hne.
  unfold urlMatchesPattern.
  rewrite (tryMatch_regex origin url pattern ou op Hu Hp Hup Hne).
  now rewrite matchHere_literal.
Qed.

(** C3 (the code departs from the claim): at the address and the pattern of
    the design's own example the matching answers false unless the two
    strings parse to the same origin (and they parse to different ones),
    although the pattern holds a wildcard and matches the address when
    every [*] stands for any substring. *)
Theorem wildcard_example_rejected (origin : string -> option string)
    (Horigins :
       forall o, origin "https://sub.example.com/anything" = Some o ->
                 origin "https://*.example.com/*" <> Some o) :
  urlMatchesPattern origin
    "https://sub.example.com/anything" "https://*.example.com/*" = false
  /\ wildcardMatches
       "https://*.example.com/*" "https://sub.example.com/anything" = true
  /\ includes "https://*.example.com/*" "*" = true.
Proof.
  split; [|split; reflexivity].
  unfold urlMatchesPattern.
  destruct (origin "https://sub.example.com/anything") as [ou|] eqn:Hurl;
    [|rewrite tryMatch_throws by (now left); reflexivity].
  destruct (origin "https://*.example.com/*") as [op|] eqn:Hpattern;
    [|rewrite tryMatch_throws by (now right); reflexivity].
  assert (Hne : (ou =? op) = false).
  { apply String.eqb_neq. intros ->. now apply (Horigins op). }
  rewrite (tryMatch_regex origin _ _ ou op Hurl Hpattern eq_refl Hne).
  reflexivity.
Qed.

(** What the wildcard step does accept: a [*] stands for a run of dots. *)
Example wildcard_accepts_dots :
  urlMatchesPattern plainOrigin
    "https://...example.com/" "https://*.example.com/*" = true
  /\ urlMatchesPattern plainOrigin
       "https://a.example.com/" "https://*.example.com/*" = false.
Proof. split; reflexivity. Qed.

Lemma wildcard_example_rejected_witness :
  urlMatchesPattern plainOrigin
    "https://sub.example.com/anything" "https://*.example.com/*" = false
  /\ wildcardMatches
       "https://*.example.com/*" "https://sub.example.com/anything" = true
  /\ includes "https://*.example.com/*" "*" = true.
Proof.
  apply (wildcard_example_rejected plainOrigin).
  intros o Hurl. injection Hurl as <-. discriminate.
Defined.

(** C7: two strings that parse as URLs with the same origin match; a stored
    pattern that parses to another origin and holds no wildcard does not
    match; so looking up [https://example.com/page2] returns every favourite
    saved for [https://example.com/page1] and none saved for
    [https://other.com/]. *)
Theorem same_origin_matches (origin : string -> option string) :
  (forall url pattern o,
      origin url = Some o -> origin pattern = Some o ->
      urlMatchesPattern origin url pattern = true)
  /\ (forall url pattern ou op,
        origin url = Some ou -> origin pattern = Some op -> ou <> op ->
        includes pattern "*" = false ->
        urlMatchesPattern origin url pattern = false)
  /\ (forall o o' st favorite,
        origin "https://example.com/page2" = Some o ->
        origin "https://example.com/page1" = Some o ->
        origin "https://other.com/" = Some o' -> o <> o' ->
        In favorite (favorites st) ->
        (urlPattern favorite = "https://example.com/page1" ->
         In favorite (getFavoritesByUrl origin "https://example.com/page2" st))
        /\ (urlPattern favorite = "https://other.com/" ->
            ~ In favorite (getFavoritesByUrl origin "https://example.com/page2" st))).
Proof.
  split; [|split].
  - apply urlMatchesPattern_same_origin.
  - apply urlMatchesPattern_other_origin_literal.
  - intros o o' st favorite H2 H1 Hother Hne Hin. unfold getFavoritesByUrl. split.
    + intros Hpat. apply filter_In. split; [exact Hin|]. rewrite Hpat.
      now apply (urlMatchesPattern_same_origin origin _ _ o).
    + intros Hpat Hfound. apply filter_In in Hfound as [_ Hmatch].
      rewrite Hpat in Hmatch.
      rewrite (urlMatchesPattern_other_origin_literal origin _ _ o o')
        in Hmatch; [discriminate|assumption..|reflexivity].
Qed.

Lemma same_origin_matches_witness :
  getFavoritesByUrl plainOrigin "https://example.com/page2"
    {| nextId := 3;
       favorites :=
         [ {| id := 2; name := "other"; code := "() => 2";
              urlPattern := "https://other.com/"; useCount := 0; createdAt := 20 |};
           {| id := 1; name := "page"; code := "() => 1";
              urlPattern := "https://example.com/page1"; useCount := 0;
              createdAt := 10 |} ] |}
  = [ {| id := 1; name := "page"; code := "() => 1";
         urlPattern := "https://example.com/page1"; useCount := 0;
         createdAt := 10 |} ]
  /\ urlMatchesPattern plainOrigin
       "https://example.com/page2" "https://example.com/page1" = true
  /\ urlMatchesPattern plainOrigin
       "https://example.com/page2" "https://other.com/" = false.
Proof.
  split; [reflexivity|]. split.
  - apply (proj1 (same_origin_matches plainOrigin) _ _ "https://example.com");
      reflexivity.
  - apply (proj1 (proj2 (same_origin_matches plainOrigin)) _ _
             "https://example.com" "https://other.com");
      [reflexivity | reflexivity | discriminate | reflexivity].
Defined.

(** C9: for every pair of strings the matching returns a boolean and no
    exception leaves it; and when either string fails to parse as a URL the
    boolean is that of the fallback: equality, or either string containing
    the other. *)
Theorem urlMatchesPattern_total (origin : string -> option string)
    (url pattern : string) :
  exists b : bool,
    urlMatchesPatternC origin url pattern = inr b
    /\ urlMatchesPattern origin url pattern = b
    /\ (origin url = None \/ origin pattern = None ->
        b = ((url =? pattern) || includes url pattern || includes pattern url)).
Proof.
  exists (urlMatchesPattern origin url pattern).
  split; [apply urlMatchesPatternC_agrees|]. split; [reflexivity|].
  intros H. unfold urlMatchesPattern.
  now rewrite (tryMatch_throws origin url pattern H).
Qed.

Lemma urlMatchesPattern_total_witness :
  urlMatchesPatternC plainOrigin "example.com/page" "example.com" = inr true
  /\ urlMatchesPatternC plainOrigin "not a url" "https://example.com/" = inr false.
Proof.
  split.
  - destruct (urlMatchesPattern_total plainOrigin "example.com/page" "example.com")
      as (b & Hc & _ & Hb).
    rewrite Hc. f_equal. apply Hb. left. reflexivity.
  - destruct (urlMatchesPattern_total plainOrigin "not a url" "https://example.com/")
      as (b & Hc & _ & Hb).
    rewrite Hc. f_equal. apply Hb. left. reflexivity.
Defined.

End MatchingFacts.

(* --------------------------------------------------------------------- *)
(** ** The favourites store *)
(* --------------------------------------------------------------------- *)

Module StoreFacts.
Import Favorites.

Lemma mapUpdating_list (id : Z) (name code urlPattern : string)
    (favs : list CodeFavorite) (acc : option CodeFavorite) :
  fst (mapUpdating id name code urlPattern favs acc)
  = map (updatedOr id name code urlPattern) favs.
Proof.
  revert acc. induction favs as [|f favs IH]; intros acc; [reflexivity|].
  cbn [mapUpdating map]. unfold updatedOr at 1.
  destruct (Favorites.id f =? id)%Z.
  - specialize (IH (Some (withDetails f name code urlPattern))).
    destruct (mapUpdating id name code urlPattern favs _) as [rest final].
    simpl in *. now rewrite IH.
  - specialize (IH acc).
    destruct (mapUpdating id name code urlPattern favs acc) as [rest final].
    simpl in *. now rewrite IH.
Qed.

Lemma mapUpdating_absent (id : Z) (name code urlPattern : string)
    (favs : list CodeFavorite) (acc : option CodeFavorite) :
  (forall f, In f favs -> Favorites.id f <> id) ->
  snd (mapUpdating id name code urlPattern favs acc) = acc.
Proof.
  revert acc. induction favs as [|f favs IH]; intros acc Hno; [reflexivity|].
  cbn [mapUpdating].
  destruct (Z.eqb_spec (Favorites.id f) id) as [E|_].
  - exfalso. apply (Hno f); [now left | exact E].
  - specialize (IH acc (fun g Hg => Hno g (or_intror Hg))).
    destruct (mapUpdating id name code urlPattern favs acc) as [rest final].
    exact IH.
Qed.

Lemma mapUpdating_found (id : Z) (name code urlPattern : string)
    (favs : list CodeFavorite) (acc : option CodeFavorite) :
  (exists f, In f favs /\ Favorites.id f = id) ->
  exists f, In f favs /\ Favorites.id f = id
            /\ snd (mapUpdating id name code urlPattern favs acc)
               = Some (withDetails f name code urlPattern).
Proof.
  revert acc. induction favs as [|f favs IH]; intros acc [g [Hg Hid]];
    [contradiction|].
  cbn [mapUpdating].
  destruct (Z.eqb_spec (Favorites.id f) id) as [E|Hne].
  - destruct (mapUpdating id name code urlPattern favs
                (Some (withDetails f name code urlPattern)))
      as [rest final] eqn:Hm.
    cbn [snd].
    destruct (in_dec Z.eq_dec id (map Favorites.id favs)) as [Hin|Hout].
    + apply in_map_iff in Hin as [h [Hh Hhin]].
      destruct (IH (Some (withDetails f name code urlPattern))
                  (ex_intro _ h (conj Hhin Hh))) as [k [Hk [Hkid Hsnd]]].
      rewrite Hm in Hsnd. exists k. auto using in_cons.
    + exists f. split; [now left|]. split; [exact E|].
      assert (Hs := mapUpdating_absent id name code urlPattern favs
                      (Some (withDetails f name code urlPattern))).
      rewrite Hm in Hs. apply Hs. intros h Hh Heq. apply Hout.
      apply in_map_iff. now exists h.
  - destruct Hg as [->|Hg]; [contradiction|].
    destruct (IH acc (ex_intro _ g (conj Hg Hid))) as [k [Hk [Hkid Hsnd]]].
    destruct (mapUpdating id name code urlPattern favs acc) as [rest final].
    exists k. auto using in_cons.
Qed.

Lemma updatedOr_id (id : Z) (name code urlPattern : string) (f : CodeFavorite) :
  Favorites.id (updatedOr id name code urlPattern f) = Favorites.id f.
Proof. unfold updatedOr. now destruct (Favorites.id f =? id)%Z. Qed.

Lemma updateFavorite_absent (id : Z) (name code urlPattern : string)
    (st : CodeFavoritesStorage) :
  (forall f, In f (favorites st) -> Favorites.id f <> id) ->
  updateFavorite id name code urlPattern st = (st, None).
Proof.
  intros Hno. unfold updateFavorite.
  pose proof (mapUpdating_absent id name code urlPattern (favorites st) None Hno) as Hs.
  destruct (mapUpdating id name code urlPattern (favorites st) None) as [l u].
  simpl in Hs. now subst u.
Qed.

Lemma updateFavorite_found (id : Z) (name code urlPattern : string)
    (st : CodeFavoritesStorage) :
  (exists f, In f (favorites st) /\ Favorites.id f = id) ->
  exists f, In f (favorites st) /\ Favorites.id f = id
    /\ updateFavorite id name code urlPattern st
       = ({| nextId := nextId st;
             favorites := map (updatedOr id name code urlPattern) (favorites st) |},
          Some (withDetails f name code urlPattern)).
Proof.
  intros Hex. unfold updateFavorite.
  destruct (mapUpdating_found id name code urlPattern (favorites st) None Hex)
    as [f [Hf [Hid Hs]]].
  pose proof (mapUpdating_list id name code urlPattern (favorites st) None) as Hl.
  destruct (mapUpdating id name code urlPattern (favorites st) None) as [l u].
  simpl in Hs, Hl. subst u l. exists f. auto.
Qed.

(** C8: when no record has the identifier, [updateFavorite] returns absent
    and leaves the collection as it was; when a record has it, the
    operation rewrites the name, code and pattern of the records with that
    identifier, keeps their identifier, use count and creation time, keeps
    every other record and [nextId], and returns the updated record. *)
Theorem updateFavorite_spec (id : Z) (name code urlPattern : string)
    (st : CodeFavoritesStorage) :
  ((forall f, In f (favorites st) -> Favorites.id f <> id) ->
   updateFavorite id name code urlPattern st = (st, None))
  /\ ((exists f, In f (favorites st) /\ Favorites.id f = id) ->
      exists f updated,
        In f (favorites st) /\ Favorites.id f = id
        /\ updated = {| id := Favorites.id f; name := name; code := code;
                        urlPattern := urlPattern; useCount := useCount f;
                        createdAt := createdAt f |}
        /\ snd (updateFavorite id name code urlPattern st) = Some updated
        /\ In updated (favorites (fst (updateFavorite id name code urlPattern st)))
        /\ nextId (fst (updateFavorite id name code urlPattern st)) = nextId st
        /\ favorites (fst (updateFavorite id name code urlPattern st))
           = map (fun g =>
                    if (Favorites.id g =? id)%Z
                    then {| id := Favorites.id g; name := name; code := code;
                            urlPattern := urlPattern; useCount := useCount g;
                            createdAt := createdAt g |}
                    else g)
                 (favorites st)).
Proof.
  split; [apply updateFavorite_absent|].
  intros Hex.
  destruct (updateFavorite_found id name code urlPattern st Hex)
    as [f [Hf [Hid Hu]]].
  exists f, (withDetails f name code urlPattern). rewrite Hu. cbn [fst snd nextId favorites].
  repeat split; try assumption.
  apply in_map_iff. exists f. split; [|exact Hf].
  unfold updatedOr. rewrite Hid, Z.eqb_refl. reflexivity.
Qed.

Lemma updateFavorite_spec_witness :
  updateFavorite 7 "n" "c" "u"
    {| nextId := 3;
       favorites := [ mkFavorite 2 "b" "cb" "ub" 5 20; mkFavorite 1 "a" "ca" "ua" 4 10 ] |}
  = ({| nextId := 3;
        favorites := [ mkFavorite 2 "b" "cb" "ub" 5 20; mkFavorite 1 "a" "ca" "ua" 4 10 ] |},
     None)
  /\ exists f updated,
       In f [ mkFavorite 2 "b" "cb" "ub" 5 20; mkFavorite 1 "a" "ca" "ua" 4 10 ]
       /\ Favorites.id f = 1%Z
       /\ updated = mkFavorite (Favorites.id f) "n" "c" "u" (useCount f) (createdAt f)
       /\ snd (updateFavorite 1 "n" "c" "u"
                 {| nextId := 3;
                    favorites := [ mkFavorite 2 "b" "cb" "ub" 5 20;
                                   mkFavorite 1 "a" "ca" "ua" 4 10 ] |})
          = Some updated.
Proof.
  split.
  - apply (proj1 (updateFavorite_spec 7 "n" "c" "u" _)).
    intros f [<-|[<-|[]]]; discriminate.
  - destruct (proj2 (updateFavorite_spec 1 "n" "c" "u"
                       {| nextId := 3;
                          favorites := [ mkFavorite 2 "b" "cb" "ub" 5 20;
                                         mkFavorite 1 "a" "ca" "ua" 4 10 ] |}))
      as (f & updated & Hf & Hid & Hupd & Hret & _).
    + exists (mkFavorite 1 "a" "ca" "ua" 4 10). split; [right; now left | reflexivity].
    + exists f, updated. auto.
Defined.

(** *** The identifier space *)

Lemma NoDup_map_filter {A B : Type} (g : A -> B) (keep : A -> bool) (l : list A) :
  NoDup (map g l) -> NoDup (map g (filter keep l)).
Proof.
  induction l as [|x l IH]; intros H; [exact H|].
  cbn [map] in H. inversion H as [|? ? Hx Hl]; subst.
  cbn [filter]. destruct (keep x); [|now apply IH].
  cbn [map]. constructor; [|now apply IH].
  intros Hin. apply Hx. apply in_map_iff in Hin as [y [Hy Hin]].
  apply filter_In in Hin as [Hin _]. apply in_map_iff. now exists y.
Qed.

Lemma map_id_updatedOr (id : Z) (name code urlPattern : string)
    (l : list CodeFavorite) :
  map Favorites.id (map (updatedOr id name code urlPattern) l) = map Favorites.id l.
Proof.
  rewrite map_map. apply map_ext. intros f. apply updatedOr_id.
Qed.

Lemma updateFavorite_state (id : Z) (name code urlPattern : string)
    (st : CodeFavoritesStorage) :
  fst (updateFavorite id name code urlPattern st) = st
  \/ fst (updateFavorite id name code urlPattern st)
     = {| nextId := nextId st;
          favorites := map (updatedOr id name code urlPattern) (favorites st) |}.
Proof.
  unfold updateFavorite.
  pose proof (mapUpdating_list id name code urlPattern (favorites st) None) as Hl.
  destruct (mapUpdating id name code urlPattern (favorites st) None) as [l u].
  simpl in Hl. subst l. destruct u; [right|left]; reflexivity.
Qed.

Lemma incrementUseCount_ids (id : Z) (st : CodeFavoritesStorage) :
  map Favorites.id (favorites (incrementUseCount id st))
  = map Favorites.id (favorites st).
Proof.
  unfold incrementUseCount. cbn [favorites]. rewrite map_map.
  apply map_ext. intros f. now destruct (Favorites.id f =? id)%Z.
Qed.

Lemma apply_nextId (op : Operation) (st : CodeFavoritesStorage) :
  nextId (apply op st)
  = match op with
    | Add _ _ _ _ => (nextId st + 1)%Z
    | _ => nextId st
    end.
Proof.
  destruct op as [n c u t|i n c u|i|i]; try reflexivity.
  cbn [apply]. destruct (updateFavorite_state i n c u st) as [-> | ->]; reflexivity.
Qed.

Lemma apply_ids (op : Operation) (st : CodeFavoritesStorage) (i : Z) :
  In i (map id (favorites (apply op st))) ->
  In i (map id (favorites st))
  \/ (i = nextId st /\ exists n c u t, op = Add n c u t).
Proof.
  destruct op as [n c u t|j n c u|j|j]; cbn [apply].
  - cbn. intros [<-|H]; [right|left; exact H].
    split; [reflexivity|]. now exists n, c, u, t.
  - destruct (updateFavorite_state j n c u st) as [-> | ->]; [now left|].
    cbn [favorites]. rewrite map_id_updatedOr. now left.
  - cbn [removeFavorite favorites]. intros H. left.
    apply in_map_iff in H as [f [Hf Hin]]. apply filter_In in Hin as [Hin _].
    apply in_map_iff. now exists f.
  - rewrite incrementUseCount_ids. now left.
Qed.

Lemma apply_WellFormed (op : Operation) (st : CodeFavoritesStorage) :
  WellFormed st -> WellFormed (apply op st).
Proof.
  intros [Hlt Hnd]. destruct op as [n c u t|j n c u|j|j]; cbn [apply].
  - split; cbn.
    + constructor; cbn; [lia|].
      eapply Forall_impl; [|exact Hlt]. cbn. intros; lia.
    + constructor; [|exact Hnd]. intros Hin.
      apply in_map_iff in Hin as [f [Hf Hin]].
      rewrite Forall_forall in Hlt. specialize (Hlt f Hin). lia.
  - destruct (updateFavorite_state j n c u st) as [-> | ->]; [now split|].
    split; cbn [nextId favorites].
    + apply Forall_map. eapply Forall_impl; [|exact Hlt].
      intros f Hf. now rewrite updatedOr_id.
    + now rewrite map_id_updatedOr.
  - split; cbn [removeFavorite nextId favorites].
    + rewrite Forall_forall in *. intros f Hf.
      apply filter_In in Hf as [Hf _]. now apply Hlt.
    + now apply NoDup_map_filter.
  - split.
    + rewrite Forall_forall in *. intros f Hf.
      assert (Hi : In (id f) (map id (favorites (incrementUseCount j st))))
        by (apply in_map_iff; now exists f).
      rewrite incrementUseCount_ids in Hi.
      apply in_map_iff in Hi as [g [Hg Hin]].
      rewrite <- Hg. exact (Hlt g Hin).
    + now rewrite incrementUseCount_ids.
Qed.

Lemma run_WellFormed (ops : list Operation) (st : CodeFavoritesStorage) :
  WellFormed st -> WellFormed (run ops st).
Proof.
  revert st. induction ops as [|op ops IH]; intros st H; [exact H|].
  cbn [run]. apply IH. now apply apply_WellFormed.
Qed.

Lemma issued_cons (op : Operation) (ops : list Operation)
    (st : CodeFavoritesStorage) :
  issued (op :: ops) st
  = (match op with
     | Add _ _ _ _ => [nextId st]
     | _ => []
     end ++ issued ops (apply op st))%list.
Proof. destruct op; reflexivity. Qed.

Lemma issued_bounds (ops : list Operation) (st : CodeFavoritesStorage) :
  (nextId st <= nextId (run ops st))%Z
  /\ Forall (fun i => (nextId st <= i < nextId (run ops st))%Z) (issued ops st)
  /\ StronglySorted Z.lt (issued ops st).
Proof.
  revert st. induction ops as [|op ops IH]; intros st.
  - cbn. split; [lia|]. split; constructor.
  - destruct (IH (apply op st)) as (Hle & Hall & Hsorted).
    rewrite issued_cons. cbn [run]. rewrite apply_nextId in Hle, Hall.
    destruct op as [n c u t|j n c u|j|j]; cbn [app].
    + split; [lia|]. split.
      * constructor; [lia|]. eapply Forall_impl; [|exact Hall]. cbn. intros; lia.
      * constructor; [exact Hsorted|].
        eapply Forall_impl; [|exact Hall]. cbn. intros; lia.
    + auto.
    + auto.
    + auto.
Qed.

Lemma stored_ids_issued (ops : list Operation) (st : CodeFavoritesStorage)
    (f : CodeFavorite) :
  In f (favorites (run ops st)) ->
  In (id f) (map id (favorites st)) \/ In (id f) (issued ops st).
Proof.
  revert st. induction ops as [|op ops IH]; intros st H.
  - left. now apply in_map.
  - cbn [run] in H. rewrite issued_cons.
    destruct (IH _ H) as [Hst|Hiss].
    + destruct (apply_ids _ _ _ Hst) as [Hold|[Hnew (n & c & u & t & ->)]].
      * now left.
      * right. rewrite Hnew. now left.
    + right. apply in_or_app. now right.
Qed.

(** C6: after any history of operations on the initial collection, [nextId]
    exceeds every stored identifier and the stored identifiers are
    distinct; the identifiers handed out by [addFavorite] along the history
    are strictly increasing, so none is handed out twice, whatever was
    removed in between; every stored identifier was handed out; and two
    successive [addFavorite] calls return two records with strictly
    increasing identifiers, both above every stored one. *)
Theorem identifier_space_invariant (ops : list Operation) :
  WellFormed (run ops initialState)
  /\ StronglySorted Z.lt (issued ops initialState)
  /\ NoDup (issued ops initialState)
  /\ Forall (fun i => (1 <= i < nextId (run ops initialState))%Z)
       (issued ops initialState)
  /\ (forall f, In f (favorites (run ops initialState)) ->
                In (id f) (issued ops initialState))
  /\ (forall name1 code1 url1 now1 name2 code2 url2 now2,
        exists first second,
          snd (addFavorite name1 code1 url1 now1 (run ops initialState))
            = Some first
          /\ snd (addFavorite name2 code2 url2 now2
                    (fst (addFavorite name1 code1 url1 now1 (run ops initialState))))
             = Some second
          /\ (id first < id second)%Z
          /\ Forall (fun f => (id f < id first)%Z)
               (favorites (run ops initialState))).
Proof.
  pose proof (run_WellFormed ops initialState) as Hwf.
  assert (Hinit : WellFormed initialState) by (split; constructor).
  specialize (Hwf Hinit).
  destruct (issued_bounds ops initialState) as (_ & Hall & Hsorted).
  split; [exact Hwf|]. split; [exact Hsorted|]. split; [|split; [exact Hall|split]].
  - clear Hall. induction Hsorted as [|i l _ IH Hi]; constructor; [|exact IH].
    intros Hin. rewrite Forall_forall in Hi. specialize (Hi i Hin). lia.
  - intros f Hf. destruct (stored_ids_issued _ _ _ Hf) as [[]|H]. exact H.
  - intros. eexists _, _. split; [reflexivity|]. split; [reflexivity|].
    cbn. split; [lia|]. exact (proj1 Hwf).
Qed.

End StoreFacts.

(* --------------------------------------------------------------------- *)
(** ** The Navigator system prompt *)
(* --------------------------------------------------------------------- *)

Module NavigatorFacts.
Import Navigator.

Lemma codeExecutionSection_titled :
  Occurs "13. Code Execution" codeExecutionSection.
Proof. apply includes_occurs. vm_compute. reflexivity. Qed.

Lemma codeExecutionSection_not_empty : codeExecutionSection <> "".
Proof. vm_compute. discriminate. Qed.

Lemma append_section_differs (base : string) :
  base ++ codeExecutionSection <> base.
Proof.
  intros H. apply codeExecutionSection_not_empty.
  apply (append_inv_head base). now rewrite append_nil_r.
Qed.

(** C10: whatever the template, the number of actions and the settings, the
    system message is the formatted base prompt (the template with
    [{{max_actions}}] substituted, trimmed as the constructor trims it)
    followed by the Code Execution section when the settings are present
    with [allowCodeGeneration] true, and the formatted base prompt alone,
    with nothing appended, when the flag is false or the settings are
    absent; so the section is appended if and only if the flag is true, and
    for a base prompt that does not itself hold the section, the message
    contains the section if and only if the flag is true. *)
Theorem NavigatorPrompt_code_section (navigatorSystemPromptTemplate : string)
    (maxActionsPerStep : option Z) (generalSettings : option GeneralSettingsConfig) :
  (NavigatorPrompt navigatorSystemPromptTemplate maxActionsPerStep generalSettings
     = formattedPrompt navigatorSystemPromptTemplate
         (match maxActionsPerStep with Some n => n | None => 10%Z end)
       ++ codeExecutionSection
   <-> exists settings,
         generalSettings = Some settings /\ allowCodeGeneration settings = true)
  /\ ((exists settings,
          generalSettings = Some settings /\ allowCodeGeneration settings = true) ->
      Occurs codeExecutionSection
        (NavigatorPrompt navigatorSystemPromptTemplate maxActionsPerStep generalSettings)
      /\ Occurs "13. Code Execution"
           (NavigatorPrompt navigatorSystemPromptTemplate maxActionsPerStep
              generalSettings))
  /\ (generalSettings = None
      \/ (exists settings,
             generalSettings = Some settings /\ allowCodeGeneration settings = false) ->
      NavigatorPrompt navigatorSystemPromptTemplate maxActionsPerStep generalSettings
      = trim (replaceFirst navigatorSystemPromptTemplate "{{max_actions}}"
                (toString (match maxActionsPerStep with Some n => n | None => 10%Z end))))
  /\ (includes
        (formattedPrompt navigatorSystemPromptTemplate
           (match maxActionsPerStep with Some n => n | None => 10%Z end))
        codeExecutionSection = false ->
      (Occurs codeExecutionSection
         (NavigatorPrompt navigatorSystemPromptTemplate maxActionsPerStep
            generalSettings)
       <-> exists settings,
             generalSettings = Some settings /\ allowCodeGeneration settings = true)).
Proof.
  unfold NavigatorPrompt.
  set (base := formattedPrompt navigatorSystemPromptTemplate
                 (match maxActionsPerStep with Some n => n | None => 10%Z end)).
  split; [|split; [|split]]; cycle 3.
  { intros Hbase. split.
    - intros Hocc. destruct generalSettings as [settings|]; cbn [codeGenerationAllowed] in Hocc.
      + destruct (allowCodeGeneration settings) eqn:Hallow; [now exists settings|].
        apply includes_occurs in Hocc. congruence.
      + apply includes_occurs in Hocc. congruence.
    - intros [settings [-> Hallow]]. cbn [codeGenerationAllowed]. rewrite Hallow.
      exists base, "". now rewrite append_nil_r. }
  - split.
    + destruct generalSettings as [settings|]; cbn [codeGenerationAllowed].
      * destruct (allowCodeGeneration settings) eqn:Hallow.
        -- intros _. now exists settings.
        -- intros H. symmetry in H. now apply append_section_differs in H.
      * intros H. symmetry in H. now apply append_section_differs in H.
    + intros [settings [-> Hallow]]. cbn [codeGenerationAllowed].
      now rewrite Hallow.
  - intros [settings [-> Hallow]]. cbn [codeGenerationAllowed]. rewrite Hallow.
    split.
    + exists base, "". now rewrite append_nil_r.
    + destruct codeExecutionSection_titled as [before [after Hsec]].
      exists (base ++ before), after. now rewrite Hsec, append_assoc.
  - intros [-> | [settings [-> Hallow]]]; cbn [codeGenerationAllowed].
    + reflexivity.
    + now rewrite Hallow.
Qed.

Lemma NavigatorPrompt_code_section_witness :
  NavigatorPrompt "
You may use up to {{max_actions}} actions per step.
" None (Some (mkSettings false true))
  = "You may use up to 10 actions per step."
  /\ Occurs "13. Code Execution"
       (NavigatorPrompt "
You may use up to {{max_actions}} actions per step.
" (Some 5%Z) (Some (mkSettings true false))).
Proof.
  split.
  - rewrite (proj1 (proj2 (proj2 (NavigatorPrompt_code_section _ None
                                    (Some (mkSettings false true)))))).
    + reflexivity.
    + right. now exists (mkSettings false true).
  - apply (proj1 (proj2 (NavigatorPrompt_code_section _ (Some 5%Z)
                           (Some (mkSettings true false))))).
    now exists (mkSettings true false).
Defined.

End NavigatorFacts.

(* --------------------------------------------------------------------- *)
(** ** The planner schedule of the step loop *)
(* --------------------------------------------------------------------- *)

Module ExecutorFacts.
Import Executor.

Lemma isPlanningStep_divide (nSteps interval : nat) :
  1 <= nSteps ->
  isPlanningStep nSteps interval = true <-> Nat.divide interval nSteps.
Proof.
  intros Hpos. destruct interval as [|k]; cbn [isPlanningStep].
  - split; [discriminate|]. intros H. apply Nat.divide_0_l in H. lia.
  - rewrite Nat.eqb_eq. apply Nat.Lcm0.mod_divide.
Qed.

Lemma shouldRunPlanner_true (ex : Executor) (jsOnly : bool)
    (nSteps : nat) (navigatorDone : bool) :
  1 <= nSteps ->
  shouldRunPlanner ex jsOnly nSteps navigatorDone = true
  <-> planner ex <> None /\ jsOnly = false
      /\ (Nat.divide (planningInterval ex) nSteps \/ navigatorDone = true).
Proof.
  intros Hpos. unfold shouldRunPlanner.
  destruct (planner ex) as [plan|].
  - rewrite andb_true_iff, negb_true_iff, orb_true_iff.
    rewrite (isPlanningStep_divide _ _ Hpos).
    split; [intros [? ?]; repeat split; [discriminate|assumption..] | tauto].
  - split; [discriminate | intros [H _]; now contradiction H].
Qed.

(** The calls of an iteration: the planning pass is among them exactly when
    the planner condition holds at the iteration's step counter and flag;
    no pass is invoked for another step counter; the counter is positive. *)
Lemma stepLoop_decisions (ex : Executor) (jsOnly : bool)
    (remaining nSteps : nat) (navigatorDone : bool) :
  Forall (fun it =>
            1 <= stepNumber it
            /\ forall m,
                 In (PlanningPass m) (calls it)
                 <-> m = stepNumber it
                     /\ shouldRunPlanner ex jsOnly (stepNumber it)
                          (navigatorDoneBefore it) = true)
         (snd (stepLoop ex jsOnly remaining nSteps navigatorDone)).
Proof.
  revert nSteps navigatorDone.
  induction remaining as [|remaining IH]; intros nSteps navigatorDone.
  - constructor.
  - cbn [stepLoop]. unfold runPlanner, navigate.
    specialize (IH (S nSteps) false).
    destruct (shouldRunPlanner ex jsOnly (S nSteps) navigatorDone) eqn:Hplan;
      [destruct (match planner ex with
                 | Some plan => plan (S nSteps)
                 | None => PassFailed
                 end)|];
      try destruct (navigator ex (S nSteps));
      try destruct (cancelRequested ex (S nSteps));
      try destruct (stepLoop ex jsOnly remaining (S nSteps) false)
        as [terminal later];
      cbn [snd app];
      (constructor; [|first [exact IH | constructor]]);
      cbn [stepNumber navigatorDoneBefore calls]; rewrite Hplan;
      (split; [lia|]); intros m; cbn [In];
      intuition (try congruence; try discriminate).
Qed.

(** The loop reads the settings only through [jsOnly]. *)
Lemma stepLoop_withSettings (settings : option GeneralSettingsConfig)
    (ex : Executor) (jsOnly : bool) (remaining nSteps : nat) (navigatorDone : bool) :
  stepLoop (withSettings settings ex) jsOnly remaining nSteps navigatorDone
  = stepLoop ex jsOnly remaining nSteps navigatorDone.
Proof.
  revert nSteps navigatorDone.
  induction remaining as [|remaining IH]; intros nSteps navigatorDone;
    [reflexivity|].
  cbn [stepLoop]. rewrite IH. reflexivity.
Qed.

(** On the fast path the loop does not read the planner at all. *)
Lemma stepLoop_fast_path (plan : option (nat -> PassResult)) (ex : Executor)
    (remaining nSteps : nat) (navigatorDone : bool) :
  stepLoop (withPlanner plan ex) true remaining nSteps navigatorDone
  = stepLoop ex true remaining nSteps navigatorDone.
Proof.
  revert nSteps navigatorDone.
  induction remaining as [|remaining IH]; intros nSteps navigatorDone;
    [reflexivity|].
  cbn [stepLoop].
  assert (Hoff : forall e, shouldRunPlanner e true (S nSteps) navigatorDone = false).
  { intros e. unfold shouldRunPlanner. now destruct (planner e). }
  rewrite !Hoff, IH. reflexivity.
Qed.

(** The loop reads the planner only where the planner condition holds: two
    planners that agree at the planning steps, and at the first step when
    the loop starts with the flag set, give the same run. *)
Lemma stepLoop_planner_read (plan plan' : nat -> PassResult) (ex : Executor)
    (jsOnly : bool) (remaining nSteps : nat) (navigatorDone : bool) :
  (forall n, isPlanningStep n (planningInterval ex) = true -> plan n = plan' n) ->
  (navigatorDone = true -> plan (S nSteps) = plan' (S nSteps)) ->
  stepLoop (withPlanner (Some plan) ex) jsOnly remaining nSteps navigatorDone
  = stepLoop (withPlanner (Some plan') ex) jsOnly remaining nSteps navigatorDone.
Proof.
  intros Hsteps. revert nSteps navigatorDone.
  induction remaining as [|remaining IH]; intros nSteps navigatorDone Hflag;
    [reflexivity|].
  cbn [stepLoop]. unfold shouldRunPlanner, runPlanner.
  cbn [planner planningInterval withPlanner].
  rewrite (IH (S nSteps) false) by discriminate.
  destruct (negb jsOnly
            && (isPlanningStep (S nSteps) (planningInterval ex) || navigatorDone))
    eqn:Hplan; [|reflexivity].
  apply andb_true_iff in Hplan as [_ Hplan].
  apply orb_true_iff in Hplan as [Hstep|Hdone].
  - now rewrite (Hsteps _ Hstep).
  - now rewrite (Hflag Hdone).
Qed.

(** When the planner condition holds, the outcome of the planning pass is
    acted on: a plan that signals completion ends the loop in that
    iteration, before any execution pass. *)
Lemma stepLoop_planner_completes (ex : Executor) (jsOnly : bool)
    (remaining nSteps : nat) (navigatorDone : bool) (plan : nat -> PassResult) :
  planner ex = Some plan -> jsOnly = false ->
  Nat.divide (planningInterval ex) (S nSteps) \/ navigatorDone = true ->
  plan (S nSteps) = PassDone ->
  stepLoop ex jsOnly (S remaining) nSteps navigatorDone
  = (Completed, [mkIteration (S nSteps) navigatorDone [PlanningPass (S nSteps)]]).
Proof.
  intros Hplanner Hjs Hwhen Hdone. cbn [stepLoop].
  assert (Hrun : shouldRunPlanner ex jsOnly (S nSteps) navigatorDone = true).
  { apply shouldRunPlanner_true; [lia|].
    split; [congruence|]. split; assumption. }
  rewrite Hrun. unfold runPlanner. rewrite Hplanner, Hdone. reflexivity.
Qed.

(** A run started by [execute] never enters an iteration with the flag
    set: an execution pass that reports completion ends the loop. *)
Lemma stepLoop_flag_clear (ex : Executor) (jsOnly : bool)
    (remaining nSteps : nat) :
  Forall (fun it => navigatorDoneBefore it = false)
    (snd (stepLoop ex jsOnly remaining nSteps false)).
Proof.
  revert nSteps. induction remaining as [|remaining IH]; intros nSteps.
  - constructor.
  - cbn [stepLoop]. specialize (IH (S nSteps)).
    destruct (if shouldRunPlanner ex jsOnly (S nSteps) false
              then runPlanner ex (S nSteps) []
              else (PassContinue, [])) as [planning planned].
    destruct planning; try (repeat constructor).
    destruct (navigate ex (S nSteps) planned) as [execution made].
    destruct execution; try (repeat constructor).
    destruct (cancelRequested ex (S nSteps)); try (repeat constructor).
    destruct (stepLoop ex jsOnly remaining (S nSteps) false) as [terminal later].
    constructor; [reflexivity | exact IH].
Qed.

Section Schedule.

Variable isClientSideJsTask : string -> bool.

Lemma stepLoop_schedule (ex : Executor) (remaining nSteps : nat)
    (navigatorDone : bool) :
  Forall (fun it =>
            (In (PlanningPass (stepNumber it)) (calls it)
             <-> PlannerCondition isClientSideJsTask ex it)
            /\ (forall m, In (PlanningPass m) (calls it) -> m = stepNumber it))
    (snd (stepLoop ex (jsOnlyForThisTask isClientSideJsTask ex)
            remaining nSteps navigatorDone)).
Proof.
  eapply Forall_impl; [|apply stepLoop_decisions].
  intros it [Hpos Hcalls]. split.
  - rewrite Hcalls. unfold PlannerCondition.
    rewrite (shouldRunPlanner_true _ _ _ _ Hpos). tauto.
  - intros m Hm. now apply Hcalls in Hm.
Qed.

End Schedule.

(** C1: [jsOnlyForThisTask] is the conjunction of the two settings and the
    classifier's verdict on the current task, computed once; in every
    iteration of the loop, from any loop state, the planning pass is
    invoked if and only if a planner is configured, [jsOnlyForThisTask] is
    false and the step counter is a multiple of the planning interval or
    the flag of the previous execution pass is set, the run depends on the
    planner at no other step, and a plan that signals completion where the
    condition holds ends the loop at once; so with both settings true and a
    JS-classified task the planner is never invoked, whatever planner is
    configured the run is the same; and with [allowCodeGeneration] false
    the run is the one obtained with [fastJsMode] off: the planner keeps
    its normal schedule. *)
Theorem planner_schedule (isClientSideJsTask : string -> bool) (ex : Executor) :
  jsOnlyForThisTask isClientSideJsTask ex
  = match generalSettings ex with
    | Some settings =>
        fastJsMode settings && allowCodeGeneration settings
        && isClientSideJsTask (currentTask ex)
    | None => false
    end
  /\ (forall remaining nSteps navigatorDone,
        Forall (fun it =>
                  (In (PlanningPass (stepNumber it)) (calls it)
                   <-> PlannerCondition isClientSideJsTask ex it)
                  /\ (forall m, In (PlanningPass m) (calls it) -> m = stepNumber it))
          (snd (stepLoop ex (jsOnlyForThisTask isClientSideJsTask ex)
                  remaining nSteps navigatorDone)))
  /\ Forall (fun it =>
               (In (PlanningPass (stepNumber it)) (calls it)
                <-> PlannerCondition isClientSideJsTask ex it)
               /\ (forall m, In (PlanningPass m) (calls it) -> m = stepNumber it))
       (snd (execute isClientSideJsTask ex))
  /\ (forall plan plan',
        (forall n, isPlanningStep n (planningInterval ex) = true ->
                   plan n = plan' n) ->
        execute isClientSideJsTask (withPlanner (Some plan) ex)
        = execute isClientSideJsTask (withPlanner (Some plan') ex))
  /\ (forall settings,
        generalSettings ex = Some settings ->
        fastJsMode settings = true -> allowCodeGeneration settings = true ->
        isClientSideJsTask (currentTask ex) = true ->
        Forall (fun it => forall m, ~ In (PlanningPass m) (calls it))
          (snd (execute isClientSideJsTask ex))
        /\ forall plan,
             execute isClientSideJsTask (withPlanner plan ex)
             = execute isClientSideJsTask ex)
  /\ (forall settings,
        generalSettings ex = Some settings ->
        allowCodeGeneration settings = false ->
        jsOnlyForThisTask isClientSideJsTask ex = false
        /\ execute isClientSideJsTask ex
           = execute isClientSideJsTask
               (withSettings (Some (mkSettings false false)) ex))
  /\ (forall remaining nSteps navigatorDone plan,
        planner ex = Some plan ->
        jsOnlyForThisTask isClientSideJsTask ex = false ->
        Nat.divide (planningInterval ex) (S nSteps) \/ navigatorDone = true ->
        plan (S nSteps) = PassDone ->
        stepLoop ex (jsOnlyForThisTask isClientSideJsTask ex)
          (S remaining) nSteps navigatorDone
        = (Completed,
           [mkIteration (S nSteps) navigatorDone [PlanningPass (S nSteps)]])).
Proof.
  split; [|split; [|split; [|split; [|split; [|split]]]]]; cycle 6.
  { intros remaining nSteps navigatorDone plan.
    apply stepLoop_planner_completes. }
  - unfold jsOnlyForThisTask, fastJsModeEnabled.
    now destruct (generalSettings ex).
  - apply stepLoop_schedule.
  - apply stepLoop_schedule.
  - intros plan plan' Hagree. unfold execute.
    change (jsOnlyForThisTask isClientSideJsTask (withPlanner (Some plan) ex))
      with (jsOnlyForThisTask isClientSideJsTask ex).
    change (jsOnlyForThisTask isClientSideJsTask (withPlanner (Some plan') ex))
      with (jsOnlyForThisTask isClientSideJsTask ex).
    change (maxSteps (withPlanner (Some plan) ex)) with (maxSteps ex).
    change (maxSteps (withPlanner (Some plan') ex)) with (maxSteps ex).
    apply stepLoop_planner_read; [exact Hagree | discriminate].
  - intros settings Hs Hfast Hallow Hjs.
    assert (Hyes : jsOnlyForThisTask isClientSideJsTask ex = true).
    { unfold jsOnlyForThisTask, fastJsModeEnabled.
      now rewrite Hs, Hfast, Hallow, Hjs. }
    split.
    + eapply Forall_impl; [|apply (stepLoop_schedule isClientSideJsTask)].
      intros it [Hiff Hown] m Hm.
      pose proof (Hown m Hm) as ->.
      apply Hiff in Hm as (_ & Hno & _). congruence.
    + intros plan. unfold execute.
      change (jsOnlyForThisTask isClientSideJsTask (withPlanner plan ex))
        with (jsOnlyForThisTask isClientSideJsTask ex).
      change (maxSteps (withPlanner plan ex)) with (maxSteps ex).
      rewrite Hyes. apply stepLoop_fast_path.
  - intros settings Hs Hallow.
    assert (Hno : jsOnlyForThisTask isClientSideJsTask ex = false).
    { unfold jsOnlyForThisTask, fastJsModeEnabled.
      rewrite Hs, Hallow, andb_false_r. reflexivity. }
    split; [exact Hno|].
    unfold execute. rewrite stepLoop_withSettings, Hno. reflexivity.
Qed.

Lemma planner_schedule_witness :
  (Forall (fun it => forall m, ~ In (PlanningPass m) (calls it))
     (snd (execute (fun task => includes task "use JS")
             (mkExecutor "use JS to set document background to blue" []
                (Some (mkSettings true true))
                (Some (fun n => if (n =? 3)%nat then PassDone else PassContinue))
                (fun n => if (n =? 4)%nat then PassDone else PassContinue)
                (fun _ => false) 3 10)))
   /\ execute (fun task => includes task "use JS")
        (withPlanner (Some (fun _ => PassFailed))
           (mkExecutor "use JS to set document background to blue" []
              (Some (mkSettings true true))
              (Some (fun n => if (n =? 3)%nat then PassDone else PassContinue))
              (fun n => if (n =? 4)%nat then PassDone else PassContinue)
              (fun _ => false) 3 10))
      = execute (fun task => includes task "use JS")
          (mkExecutor "use JS to set document background to blue" []
             (Some (mkSettings true true))
             (Some (fun n => if (n =? 3)%nat then PassDone else PassContinue))
             (fun n => if (n =? 4)%nat then PassDone else PassContinue)
             (fun _ => false) 3 10))
  /\ execute (fun task => includes task "use JS")
       (mkExecutor "use JS to set document background to blue" []
          (Some (mkSettings false true))
          (Some (fun n => if (n =? 3)%nat then PassDone else PassContinue))
          (fun n => if (n =? 4)%nat then PassDone else PassContinue)
          (fun _ => false) 3 10)
     = execute (fun task => includes task "use JS")
         (withSettings (Some (mkSettings false false))
            (mkExecutor "use JS to set document background to blue" []
               (Some (mkSettings false true))
               (Some (fun n => if (n =? 3)%nat then PassDone else PassContinue))
               (fun n => if (n =? 4)%nat then PassDone else PassContinue)
               (fun _ => false) 3 10))
  /\ Forall (fun it => In (PlanningPass (stepNumber it)) (calls it))
       (snd (stepLoop
               (mkExecutor "find the cheapest flight to Oslo" []
                  (Some (mkSettings true true))
                  (Some (fun _ => PassContinue))
                  (fun _ => PassContinue) (fun _ => false) 3 10)
               (jsOnlyForThisTask (fun task => includes task "use JS")
                  (mkExecutor "find the cheapest flight to Oslo" []
                     (Some (mkSettings true true))
                     (Some (fun _ => PassContinue))
                     (fun _ => PassContinue) (fun _ => false) 3 10))
               1 0 true)).
Proof.
  split; [|split].
  - destruct (proj1 (proj2 (proj2 (proj2 (proj2
                 (planner_schedule (fun task => includes task "use JS")
                    (mkExecutor "use JS to set document background to blue" []
                       (Some (mkSettings true true))
                       (Some (fun n => if (n =? 3)%nat then PassDone else PassContinue))
                       (fun n => if (n =? 4)%nat then PassDone else PassContinue)
                       (fun _ => false) 3 10))))))
                (mkSettings true true) eq_refl eq_refl eq_refl eq_refl)
      as [Hnone Hany].
    split; [exact Hnone | exact (Hany (Some (fun _ => PassFailed)))].
  - apply (proj1 (proj2 (proj2 (proj2 (proj2 (proj2 (planner_schedule _ _))))))
             (mkSettings false true)); reflexivity.
  - apply Forall_forall. intros it Hin.
    pose proof (proj1 (Forall_forall _ _)
                  (proj1 (proj2 (planner_schedule
                                   (fun task => includes task "use JS")
                                   (mkExecutor "find the cheapest flight to Oslo" []
                                      (Some (mkSettings true true))
                                      (Some (fun _ => PassContinue))
                                      (fun _ => PassContinue) (fun _ => false) 3 10)))
                         1 0 true) it Hin) as [Hiff _].
    cbn in Hin. destruct Hin as [<-|[]].
    apply Hiff. split; [discriminate|]. split; [reflexivity|].
    right. reflexivity.
Defined.

(** A run with the fast path off: the planner is invoked at step 3, where
    it completes the task, although the task is JS-classified. *)
Example fast_path_off_run :
  execute (fun task => includes task "use JS")
    (mkExecutor "use JS to set document background to blue" []
       (Some (mkSettings true false))
       (Some (fun n => if (n =? 3)%nat then PassDone else PassContinue))
       (fun n => if (n =? 4)%nat then PassDone else PassContinue)
       (fun _ => false) 3 10)
  = (Completed,
     [ mkIteration 1 false [ExecutionPass 1];
       mkIteration 2 false [ExecutionPass 2];
       mkIteration 3 false [PlanningPass 3] ]).
Proof. reflexivity. Qed.

(** The same run with the master switch off and Fast JS Mode on: the
    planner keeps that schedule. *)
Example master_switch_off_run :
  execute (fun task => includes task "use JS")
    (mkExecutor "use JS to set document background to blue" []
       (Some (mkSettings false true))
       (Some (fun n => if (n =? 3)%nat then PassDone else PassContinue))
       (fun n => if (n =? 4)%nat then PassDone else PassContinue)
       (fun _ => false) 3 10)
  = (Completed,
     [ mkIteration 1 false [ExecutionPass 1];
       mkIteration 2 false [ExecutionPass 2];
       mkIteration 3 false [PlanningPass 3] ]).
Proof. reflexivity. Qed.

(** The same task on the fast path: no planning pass at step 3, the run
    goes on until the execution pass reports completion at step 4. *)
Example fast_path_run :
  execute (fun task => includes task "use JS")
    (mkExecutor "use JS to set document background to blue" []
       (Some (mkSettings true true))
       (Some (fun n => if (n =? 3)%nat then PassDone else PassContinue))
       (fun n => if (n =? 4)%nat then PassDone else PassContinue)
       (fun _ => false) 3 10)
  = (Completed,
     [ mkIteration 1 false [ExecutionPass 1];
       mkIteration 2 false [ExecutionPass 2];
       mkIteration 3 false [ExecutionPass 3];
       mkIteration 4 false [ExecutionPass 4] ]).
Proof. reflexivity. Qed.

(** A loop entered with the flag set invokes the planner at a step that is
    no multiple of the interval, then the execution pass. *)
Example flag_set_run :
  stepLoop
    (mkExecutor "find the cheapest flight to Oslo" []
       (Some (mkSettings true true))
       (Some (fun _ => PassContinue))
       (fun _ => PassContinue) (fun _ => false) 3 10)
    false 2 0 true
  = (MaxStepsReached,
     [ mkIteration 1 true [PlanningPass 1; ExecutionPass 1];
       mkIteration 2 false [ExecutionPass 2] ]).
Proof. reflexivity. Qed.

End ExecutorFacts.

(* ===================================================================== *)
(** * Part III: further properties of the same sources *)
(* ===================================================================== *)

(** ** The message block: decoding, display and the save button *)

Module MessageBlockFacts.
Import Codec.

Lemma prefix_append_mono (p a r : string) :
  prefix p a = true -> prefix p (a ++ r) = true.
Proof.
  intros H. apply prefix_true in H as [x ->].
  rewrite append_assoc. apply prefix_append.
Qed.

(** The text before the leftmost occurrence holds no occurrence. *)
Lemma splitAtFirst_before (p s before after : string) :
  p <> "" ->
  splitAtFirst p s = Some (before, after) -> includes before p = false.
Proof.
  intros Hp. revert before after.
  induction s as [|c s IH]; intros before after H.
  - simpl in H. destruct p; [contradiction|discriminate].
  - cbn [splitAtFirst] in H. destruct (prefix p (String c s)) eqn:Hpre.
    + injection H as <- <-. destruct p; [contradiction|reflexivity].
    + destruct (splitAtFirst p s) as [[b a]|] eqn:Hs; [|discriminate].
      injection H as <- <-. cbn [includes].
      rewrite (IH b a eq_refl), orb_false_r.
      destruct (prefix p (String c b)) eqn:Hb; [|reflexivity].
      apply splitAtFirst_sound in Hs. subst s.
      apply (prefix_append_mono _ _ (p ++ a)) in Hb.
      simpl append in Hb. congruence.
Qed.

Lemma includes_suffix (a b p : string) :
  includes (a ++ b) p = false -> includes b p = false.
Proof.
  intros H. destruct (includes b p) eqn:Hb; [|reflexivity].
  apply includes_occurs in Hb as [x [y ->]].
  assert (Hocc : includes (a ++ x ++ p ++ y) p = true).
  { apply includes_occurs. exists (a ++ x), y. now rewrite append_assoc. }
  congruence.
Qed.

(** Decoding returns a code exactly when the content is some text without
    start marker, the start marker, that code without end marker, the end
    marker, and any text: the code is what stands between the first start
    marker and the first end marker after it. *)
Theorem codeMatch_exact (content code : string) :
  codeMatch content = Some code
  <-> exists before after,
        content = before ++ startMarker ++ code ++ endMarker ++ after
        /\ includes before startMarker = false
        /\ includes code endMarker = false.
Proof.
  split.
  - unfold codeMatch, findBlock. intros H.
    destruct (splitAtFirst startMarker content) as [[before rest]|] eqn:Hs;
      [|discriminate].
    destruct (splitAtFirst endMarker rest) as [[inner after]|] eqn:He;
      [|discriminate].
    injection H as ->. exists before, after.
    split; [|split].
    + apply splitAtFirst_sound in Hs, He. now rewrite Hs, He.
    + apply (splitAtFirst_before startMarker content before rest);
        [unfold startMarker; discriminate | exact Hs].
    + apply (splitAtFirst_before endMarker rest code after);
        [unfold endMarker; discriminate | exact He].
  - intros (before & after & -> & Hb & Hc). unfold codeMatch, findBlock.
    unfold startMarker at 1 2.
    rewrite splitAtFirst_fresh; [|reflexivity|exact Hb].
    unfold endMarker at 1 2.
    rewrite splitAtFirst_fresh; [reflexivity|reflexivity|exact Hc].
Qed.

(** The displayed text is the stored content exactly when no code can be
    decoded from it; that is the case when the start marker or the end
    marker is missing (an unterminated block is shown as it is); and the
    displayed text is never longer than the content. *)
Theorem displayContent_unchanged (content : string) :
  (displayContent content = content <-> codeMatch content = None)
  /\ (includes content startMarker = false \/ includes content endMarker = false ->
      codeMatch content = None /\ displayContent content = content)
  /\ String.length (displayContent content) <= String.length content.
Proof.
  assert (Hiff : displayContent content = content <-> codeMatch content = None).
  { rewrite CodecFacts.codeMatch_findBlock. split.
    - intros E. destruct (findBlock content) eqn:Hb; [|reflexivity].
      exfalso. apply (CodecFacts.displayContent_moves content); [|exact E].
      now rewrite Hb.
    - apply CodecFacts.displayContent_fixed. }
  split; [exact Hiff|]. split.
  - intros H.
    assert (Hnone : codeMatch content = None).
    { destruct H as [H|H]; [now apply CodecFacts.codeMatch_none|].
      unfold codeMatch, findBlock.
      destruct (splitAtFirst startMarker content) as [[before rest]|] eqn:Hs;
        [|reflexivity].
      apply splitAtFirst_sound in Hs. subst content.
      apply includes_suffix in H. apply includes_suffix in H.
      apply splitAtFirst_none in H. now rewrite H. }
    split; [exact Hnone | now apply Hiff].
  - apply CodecFacts.BlocksRemoved_length, CodecFacts.stripBlocks_removes.
Qed.

Lemma displayContent_unchanged_witness :
  codeMatch "Code executed successfully.<nano_executed_code>() => 1" = None
  /\ displayContent "Code executed successfully.<nano_executed_code>() => 1"
     = "Code executed successfully.<nano_executed_code>() => 1".
Proof.
  apply (proj1 (proj2 (displayContent_unchanged
                         "Code executed successfully.<nano_executed_code>() => 1"))).
  right. reflexivity.
Defined.

Lemma truthy_held (s : option string) :
  truthy s = true -> s = Some (held s) /\ held s <> "".
Proof.
  destruct s as [s|]; [|discriminate]. cbn. intros H.
  split; [reflexivity|]. apply negb_true_iff in H. now apply String.eqb_neq.
Qed.

Lemma codeToSave_cases (executedCode : option string) (content : string) :
  truthy (codeToSave executedCode content) = true ->
  codeToSave executedCode content = executedCode /\ truthy executedCode = true
  \/ truthy executedCode = false /\ hasCodeExecutedText content = true
     /\ codeMatch content = codeToSave executedCode content.
Proof.
  unfold codeToSave. destruct (truthy executedCode) eqn:Hexec; cbn [negb andb].
  - intros _. now left.
  - destruct (hasCodeExecutedText content) eqn:Htext.
    + destruct (codeMatch content) as [c|] eqn:Hm.
      * intros _. right. auto.
      * intros H. congruence.
    + intros H. congruence.
Qed.

(** A click on the save button hands [onSaveCode] the index of the message
    and a non-empty code: the code given by the parent when there is one,
    otherwise the code decoded from a message that reads like an execution
    outcome; it alerts exactly when the handler is missing or no non-empty
    code is known.  The second branch of the handler is never the one that
    saves. *)
Theorem handleSaveClick_effect (messageIndex : nat) (executedCode : option string)
    (content : string) (onSaveCode : bool) :
  (forall i code,
      handleSaveClick messageIndex executedCode content onSaveCode
        = CallOnSaveCode i code ->
      i = messageIndex /\ onSaveCode = true /\ code <> ""
      /\ codeToSave executedCode content = Some code
      /\ (executedCode = Some code
          \/ truthy executedCode = false /\ hasCodeExecutedText content = true
             /\ codeMatch content = Some code))
  /\ (handleSaveClick messageIndex executedCode content onSaveCode = AlertNoCode
      <-> onSaveCode = false \/ truthy (codeToSave executedCode content) = false)
  /\ (truthy executedCode = true -> onSaveCode = true ->
      handleSaveClick messageIndex executedCode content onSaveCode
        = CallOnSaveCode messageIndex (held executedCode)).
Proof.
  unfold handleSaveClick.
  destruct (truthy (codeToSave executedCode content)) eqn:Hsave.
  - destruct (truthy_held _ Hsave) as [Hsome Hne].
    destruct (codeToSave_cases _ _ Hsave) as [[Heq Hexec]|(Hexec & Htext & Hm)].
    + destruct onSaveCode; cbn [andb]; rewrite ?Hexec; cbn [andb].
      * split; [|split].
        -- intros i code [= <- <-].
           split; [reflexivity|]. split; [reflexivity|]. split; [exact Hne|].
           split; [exact Hsome|]. left.
           transitivity (codeToSave executedCode content);
             [symmetry; exact Heq | exact Hsome].
        -- split; [discriminate | intros [?|?]; discriminate].
        -- intros _ _. now rewrite Heq.
      * split; [|split].
        -- discriminate.
        -- split; auto.
        -- discriminate.
    + destruct onSaveCode; cbn [andb]; rewrite ?Hexec; cbn [andb].
      * split; [|split].
        -- intros i code [= <- <-].
           split; [reflexivity|]. split; [reflexivity|]. split; [exact Hne|].
           split; [exact Hsome|]. right.
           split; [reflexivity|]. split; [exact Htext|].
           transitivity (codeToSave executedCode content);
             [exact Hm | exact Hsome].
        -- split; [discriminate | intros [?|?]; discriminate].
        -- discriminate.
      * split; [|split].
        -- discriminate.
        -- split; auto.
        -- discriminate.
  - assert (Hexec : truthy executedCode = false).
    { unfold codeToSave in Hsave.
      destruct (truthy executedCode) eqn:Hexec; [|reflexivity].
      cbn [negb andb] in Hsave. congruence. }
    cbn [andb]. rewrite Hexec. cbn [andb].
    split; [|split].
    + discriminate.
    + split; auto.
    + discriminate.
Qed.

Lemma handleSaveClick_effect_witness :
  handleSaveClick 4 None
    (encode "Code execution failed: x is not defined" "() => x") true
  = CallOnSaveCode 4 "() => x"
  /\ codeMatch (encode "Code execution failed: x is not defined" "() => x")
     = Some "() => x".
Proof.
  split; [reflexivity|].
  destruct (proj1 (handleSaveClick_effect 4 None
                     (encode "Code execution failed: x is not defined" "() => x")
                     true) 4 "() => x" eq_refl)
    as (_ & _ & _ & _ & [H|(_ & _ & H)]); [discriminate | exact H].
Defined.

End MessageBlockFacts.

(* --------------------------------------------------------------------- *)
(** ** The store: lookups after each operation *)
(* --------------------------------------------------------------------- *)

Module StoreReadFacts.
Import Favorites.

Lemma storage_eta (st : CodeFavoritesStorage) :
  {| nextId := nextId st; favorites := favorites st |} = st.
Proof. now destruct st. Qed.

Lemma find_none_ids (i : Z) (l : list CodeFavorite) :
  find (fun f => (id f =? i)%Z) l = None <-> forall f, In f l -> id f <> i.
Proof.
  split.
  - intros H f Hf E. apply (find_none _ _ H) in Hf. apply Z.eqb_neq in Hf. auto.
  - intros H. induction l as [|f l IH]; [reflexivity|]. cbn [find].
    destruct (Z.eqb_spec (id f) i) as [E|_].
    + exfalso. apply (H f); [now left | exact E].
    + apply IH. intros g Hg. apply H. now right.
Qed.

Lemma filter_all (i : Z) (l : list CodeFavorite) :
  (forall f, In f l -> id f <> i) ->
  filter (fun f => negb (id f =? i)%Z) l = l.
Proof.
  induction l as [|f l IH]; intros H; [reflexivity|]. cbn [filter].
  destruct (Z.eqb_spec (id f) i) as [E|_].
  - exfalso. apply (H f); [now left | exact E].
  - cbn [negb]. f_equal. apply IH. intros g Hg. apply H. now right.
Qed.

Lemma find_filter_other (i j : Z) (l : list CodeFavorite) :
  find (fun f => (id f =? j)%Z) (filter (fun f => negb (id f =? i)%Z) l)
  = if (j =? i)%Z then None else find (fun f => (id f =? j)%Z) l.
Proof.
  induction l as [|f l IH]; [now destruct (j =? i)%Z|].
  cbn [filter find].
  destruct (Z.eqb_spec (id f) i) as [Ei|Ni]; cbn [negb].
  - rewrite IH. destruct (Z.eqb_spec j i) as [Eji|Nji]; [reflexivity|].
    destruct (Z.eqb_spec (id f) j) as [Ej|_]; [congruence|reflexivity].
  - cbn [find]. rewrite IH.
    destruct (Z.eqb_spec (id f) j) as [Ej|Nj]; [|reflexivity].
    destruct (Z.eqb_spec j i) as [Eji|_]; [congruence|reflexivity].
Qed.

Lemma find_map_same_id (g : CodeFavorite -> CodeFavorite) (j : Z)
    (l : list CodeFavorite) :
  (forall f, id (g f) = id f) ->
  find (fun f => (id f =? j)%Z) (map g l)
  = option_map g (find (fun f => (id f =? j)%Z) l).
Proof.
  intros Hg. induction l as [|f l IH]; [reflexivity|].
  cbn [map find]. rewrite Hg. now destruct (id f =? j)%Z.
Qed.

(** Adding and looking up: [addFavorite] resolves to the record it stored,
    with the identifier [nextId], the given name, code and pattern, a use
    count of 0 and the creation time; looking that identifier up right
    after returns the same record, in any state of the store, and every
    other lookup is as before. *)
Theorem addFavorite_lookup (name code urlPattern : string) (now : Z)
    (st : CodeFavoritesStorage) :
  snd (addFavorite name code urlPattern now st)
    = Some (mkFavorite (nextId st) name code urlPattern 0 now)
  /\ getFavoriteById (nextId st) (fst (addFavorite name code urlPattern now st))
     = snd (addFavorite name code urlPattern now st)
  /\ (forall j, j <> nextId st ->
        getFavoriteById j (fst (addFavorite name code urlPattern now st))
        = getFavoriteById j st)
  /\ favorites (fst (addFavorite name code urlPattern now st))
     = mkFavorite (nextId st) name code urlPattern 0 now :: favorites st.
Proof.
  unfold addFavorite, getFavoriteById. cbn.
  split; [reflexivity|]. split; [now rewrite Z.eqb_refl|].
  split; [|reflexivity].
  intros j Hj. destruct (Z.eqb_spec (nextId st) j); [congruence|reflexivity].
Qed.

(** Removing: the identifier can no longer be looked up, every other lookup
    and [nextId] are as before, removing an identifier that is not stored
    leaves the collection unchanged, and removing twice is removing once. *)
Theorem removeFavorite_lookup (i : Z) (st : CodeFavoritesStorage) :
  getFavoriteById i (removeFavorite i st) = None
  /\ (forall j, j <> i ->
        getFavoriteById j (removeFavorite i st) = getFavoriteById j st)
  /\ nextId (removeFavorite i st) = nextId st
  /\ (getFavoriteById i st = None -> removeFavorite i st = st)
  /\ removeFavorite i (removeFavorite i st) = removeFavorite i st.
Proof.
  unfold getFavoriteById, removeFavorite. cbn [favorites nextId].
  split; [|split; [|split; [|split]]].
  - now rewrite find_filter_other, Z.eqb_refl.
  - intros j Hj. rewrite find_filter_other.
    now destruct (Z.eqb_spec j i).
  - reflexivity.
  - intros H. rewrite filter_all by now apply find_none_ids.
    apply storage_eta.
  - f_equal. apply filter_all. intros f Hf E.
    apply filter_In in Hf as [_ Hf]. rewrite E, Z.eqb_refl in Hf. discriminate.
Qed.

Lemma removeFavorite_lookup_witness :
  removeFavorite 9
    {| nextId := 3; favorites := [ mkFavorite 2 "b" "cb" "ub" 5 20 ] |}
  = {| nextId := 3; favorites := [ mkFavorite 2 "b" "cb" "ub" 5 20 ] |}.
Proof.
  apply (proj1 (proj2 (proj2 (proj2 (removeFavorite_lookup 9 _))))).
  reflexivity.
Defined.

(** Counting a use: looking the identifier up afterwards returns the record
    found before with its use count one higher and nothing else changed,
    every other lookup and [nextId] are as before, and counting a use of an
    identifier that is not stored leaves the collection unchanged. *)
Theorem incrementUseCount_lookup (i : Z) (st : CodeFavoritesStorage) :
  getFavoriteById i (incrementUseCount i st)
    = option_map
        (fun f => mkFavorite (id f) (name f) (code f) (urlPattern f)
                    (useCount f + 1) (createdAt f))
        (getFavoriteById i st)
  /\ (forall j, j <> i ->
        getFavoriteById j (incrementUseCount i st) = getFavoriteById j st)
  /\ nextId (incrementUseCount i st) = nextId st
  /\ (getFavoriteById i st = None -> incrementUseCount i st = st).
Proof.
  unfold getFavoriteById, incrementUseCount. cbn [favorites nextId].
  change (fun favorite : CodeFavorite =>
            if (id favorite =? i)%Z
            then {| id := id favorite; name := name favorite;
                    code := code favorite; urlPattern := urlPattern favorite;
                    useCount := useCount favorite + 1;
                    createdAt := createdAt favorite |}
            else favorite)
    with (fun f => if (id f =? i)%Z then used f else f).
  assert (Hid : forall f, id (if (id f =? i)%Z then used f else f) = id f)
    by (intros f; now destruct (id f =? i)%Z).
  split; [|split; [|split]].
  - rewrite (find_map_same_id _ i _ Hid).
    destruct (find (fun f => (id f =? i)%Z) (favorites st)) as [f|] eqn:Hf;
      [|reflexivity].
    apply find_some in Hf as [_ Hf]. cbn [option_map]. now rewrite Hf.
  - intros j Hj. rewrite (find_map_same_id _ j _ Hid).
    destruct (find (fun f => (id f =? j)%Z) (favorites st)) as [f|] eqn:Hf;
      [|reflexivity].
    apply find_some in Hf as [_ Hf]. apply Z.eqb_eq in Hf. cbn [option_map].
    destruct (Z.eqb_spec (id f) i); [congruence|reflexivity].
  - reflexivity.
  - intros H. etransitivity; [|apply storage_eta]. f_equal.
    etransitivity; [|apply map_id]. apply map_ext_in.
    intros f Hf. destruct (Z.eqb_spec (id f) i) as [E|_]; [|reflexivity].
    exfalso. exact (proj1 (find_none_ids i _) H f Hf E).
Qed.

Lemma incrementUseCount_lookup_witness :
  incrementUseCount 9
    {| nextId := 3; favorites := [ mkFavorite 2 "b" "cb" "ub" 5 20 ] |}
  = {| nextId := 3; favorites := [ mkFavorite 2 "b" "cb" "ub" 5 20 ] |}.
Proof.
  apply (proj2 (proj2 (proj2 (incrementUseCount_lookup 9 _)))).
  reflexivity.
Defined.

Lemma updatedOr_twice (i : Z) (n1 c1 u1 n2 c2 u2 : string) (f : CodeFavorite) :
  updatedOr i n2 c2 u2 (updatedOr i n1 c1 u1 f) = updatedOr i n2 c2 u2 f.
Proof.
  unfold updatedOr. destruct (id f =? i)%Z eqn:E.
  - cbn [withDetails id]. now rewrite E.
  - now rewrite E.
Qed.

Lemma updateFavorite_state_exact (i : Z) (n c u : string)
    (st : CodeFavoritesStorage) :
  fst (updateFavorite i n c u st)
  = {| nextId := nextId st;
       favorites := map (updatedOr i n c u) (favorites st) |}.
Proof.
  destruct (find (fun f => (id f =? i)%Z) (favorites st)) as [f|] eqn:Hf.
  - apply find_some in Hf as [Hin Hid]. apply Z.eqb_eq in Hid.
    destruct (StoreFacts.updateFavorite_found i n c u st
                (ex_intro _ f (conj Hin Hid))) as (g & _ & _ & ->).
    reflexivity.
  - rewrite StoreFacts.updateFavorite_absent by now apply find_none_ids.
    cbn [fst]. symmetry. etransitivity; [|apply storage_eta]. f_equal.
    etransitivity; [|apply map_id]. apply map_ext_in.
    intros g Hg. unfold updatedOr.
    destruct (Z.eqb_spec (id g) i) as [E|_]; [|reflexivity].
    exfalso. exact (proj1 (find_none_ids i _) Hf g Hg E).
Qed.

(** Updating and looking up: after [updateFavorite] the identifier looks up
    to the record found before with the new name, code and pattern (and to
    nothing when it was not stored), every other lookup is as before, and
    a second update of the same identifier overwrites the first: the store
    ends as if only the second had been made. *)
Theorem updateFavorite_lookup (i : Z) (n1 c1 u1 n2 c2 u2 : string)
    (st : CodeFavoritesStorage) :
  getFavoriteById i (fst (updateFavorite i n1 c1 u1 st))
    = option_map
        (fun f => mkFavorite (id f) n1 c1 u1 (useCount f) (createdAt f))
        (getFavoriteById i st)
  /\ (forall j, j <> i ->
        getFavoriteById j (fst (updateFavorite i n1 c1 u1 st))
        = getFavoriteById j st)
  /\ fst (updateFavorite i n2 c2 u2 (fst (updateFavorite i n1 c1 u1 st)))
     = fst (updateFavorite i n2 c2 u2 st).
Proof.
  rewrite !updateFavorite_state_exact. unfold getFavoriteById.
  cbn [favorites nextId].
  split; [|split].
  - rewrite (find_map_same_id _ i _ (StoreFacts.updatedOr_id i n1 c1 u1)).
    destruct (find (fun f => (id f =? i)%Z) (favorites st)) as [f|] eqn:Hf;
      [|reflexivity].
    apply find_some in Hf as [_ Hf]. cbn [option_map]. unfold updatedOr.
    now rewrite Hf.
  - intros j Hj.
    rewrite (find_map_same_id _ j _ (StoreFacts.updatedOr_id i n1 c1 u1)).
    destruct (find (fun f => (id f =? j)%Z) (favorites st)) as [f|] eqn:Hf;
      [|reflexivity].
    apply find_some in Hf as [_ Hf]. apply Z.eqb_eq in Hf. cbn [option_map].
    unfold updatedOr. destruct (Z.eqb_spec (id f) i); [congruence|reflexivity].
  - f_equal. rewrite map_map. apply map_ext. intros f. apply updatedOr_twice.
Qed.

(** *** Reachable stores *)

Lemma apply_bounds (op : Operation) (st : CodeFavoritesStorage) :
  (1 <= nextId st)%Z ->
  Forall (fun f => (1 <= id f)%Z /\ (0 <= useCount f)%Z) (favorites st) ->
  (1 <= nextId (apply op st))%Z
  /\ Forall (fun f => (1 <= id f)%Z /\ (0 <= useCount f)%Z)
       (favorites (apply op st)).
Proof.
  intros Hn Hall. split.
  - rewrite StoreFacts.apply_nextId. destruct op; lia.
  - destruct op as [n c u t|j n c u|j|j]; cbn [apply].
    + cbn. constructor; [cbn; lia | exact Hall].
    + rewrite updateFavorite_state_exact. cbn [favorites].
      apply Forall_map. eapply Forall_impl; [|exact Hall].
      intros f Hf. unfold updatedOr. now destruct (id f =? j)%Z.
    + cbn [removeFavorite favorites]. rewrite Forall_forall in *.
      intros f Hf. apply filter_In in Hf as [Hf _]. now apply Hall.
    + cbn [incrementUseCount favorites]. apply Forall_map.
      eapply Forall_impl; [|exact Hall].
      intros f [Hf1 Hf2]. destruct (id f =? j)%Z; cbn; split; lia.
Qed.

Lemma run_bounds (ops : list Operation) (st : CodeFavoritesStorage) :
  (1 <= nextId st)%Z ->
  Forall (fun f => (1 <= id f)%Z /\ (0 <= useCount f)%Z) (favorites st) ->
  Forall (fun f => (1 <= id f)%Z /\ (0 <= useCount f)%Z)
    (favorites (run ops st)).
Proof.
  revert st. induction ops as [|op ops IH]; intros st Hn Hall; [exact Hall|].
  cbn [run]. destruct (apply_bounds op st Hn Hall). now apply IH.
Qed.

Lemma find_unique (l : list CodeFavorite) (f : CodeFavorite) :
  NoDup (map id l) -> In f l ->
  find (fun g => (id g =? id f)%Z) l = Some f.
Proof.
  induction l as [|g l IH]; intros Hnd Hin; [contradiction|].
  cbn [map] in Hnd. inversion Hnd as [|? ? Hg Hl]; subst. cbn [find].
  destruct Hin as [->|Hin]; [now rewrite Z.eqb_refl|].
  destruct (Z.eqb_spec (id g) (id f)) as [E|_]; [|now apply IH].
  exfalso. apply Hg. rewrite E. now apply in_map.
Qed.

(** In every state reached from the initial collection by the store's
    operations, each stored favourite has an identifier of at least 1 and
    a use count of at least 0, looking its identifier up returns exactly
    that favourite, and [updateFavorite] resolves to the very record a
    lookup returns afterwards. *)
Theorem reachable_store_lookup (ops : list Operation) :
  (forall f, In f (favorites (run ops initialState)) ->
     (1 <= id f)%Z /\ (0 <= useCount f)%Z
     /\ getFavoriteById (id f) (run ops initialState) = Some f)
  /\ (forall i n c u,
        snd (updateFavorite i n c u (run ops initialState))
        = getFavoriteById i (fst (updateFavorite i n c u (run ops initialState)))).
Proof.
  assert (Hwf : WellFormed (run ops initialState))
    by (apply StoreFacts.run_WellFormed; split; constructor).
  destruct Hwf as [_ Hnd].
  split.
  - intros f Hf.
    pose proof (run_bounds ops initialState ltac:(cbn; lia) ltac:(constructor)) as Hb.
    rewrite Forall_forall in Hb. destruct (Hb f Hf) as [H1 H2].
    split; [exact H1|]. split; [exact H2|].
    now apply find_unique.
  - intros i n c u. set (st := run ops initialState) in *.
    destruct (find (fun f => (id f =? i)%Z) (favorites st)) as [f|] eqn:Hf.
    + apply find_some in Hf as [Hin Hid]. apply Z.eqb_eq in Hid.
      destruct (StoreFacts.updateFavorite_found i n c u st
                  (ex_intro _ f (conj Hin Hid))) as (g & Hg & Hgid & ->).
      cbn [fst snd]. unfold getFavoriteById. cbn [favorites].
      rewrite (find_map_same_id _ i _ (StoreFacts.updatedOr_id i n c u)).
      rewrite <- Hgid, (find_unique _ g Hnd Hg). cbn [option_map].
      unfold updatedOr. now rewrite Z.eqb_refl.
    + rewrite StoreFacts.updateFavorite_absent by now apply find_none_ids.
      cbn [fst snd]. unfold getFavoriteById. now rewrite Hf.
Qed.

End StoreReadFacts.

(* --------------------------------------------------------------------- *)
(** ** Matching: exact matches and what the wildcard step accepts *)
(* --------------------------------------------------------------------- *)

Module WildcardFacts.
Import Favorites.

Lemma DotRuns_nil (url : string) : DotRuns "" url -> url = "".
Proof. intros H. now inversion H. Qed.

Lemma matchHere_dot_runs (pattern url : string) (atStart : bool) :
  matchHere (map termOf (list_ascii_of_string pattern) ++ [TEnd])%list atStart url
    = true
  <-> DotRuns pattern url.
Proof.
  revert url atStart. induction pattern as [|c pattern IH]; intros url atStart.
  - destruct url as [|d url]; cbn [list_ascii_of_string map app matchHere].
    + split; intros _; [constructor | reflexivity].
    + split; [discriminate | intros H; inversion H].
  - cbn [list_ascii_of_string map app]. unfold termOf at 1.
    destruct (Ascii.eqb c "*") eqn:Hstar.
    + apply Ascii.eqb_eq in Hstar. subst c. cbn [matchHere].
      revert atStart. induction url as [|d url IHurl]; intros atStart.
      * rewrite orb_false_r, IH. split; intros H.
        -- now constructor.
        -- inversion H; subst; try discriminate; assumption.
      * rewrite orb_true_iff, andb_true_iff, IH. cbn [atomMatches].
        rewrite Ascii.eqb_eq, IHurl. split.
        -- intros [H|[<- H]]; [now apply DR_star_none | now apply DR_star_dot].
        -- intros H. inversion H; subst; try discriminate;
             [now left | right; now split].
    + cbn [matchHere]. destruct url as [|d url].
      * split; [discriminate | intros H; inversion H; subst; discriminate].
      * rewrite andb_true_iff, IH. cbn [atomMatches]. rewrite Ascii.eqb_eq.
        split.
        -- intros [<- H]. now constructor.
        -- intros H. inversion H; subst; try discriminate. now split.
Qed.

(** A string always matches itself as a pattern, whether or not it parses
    as a URL: favourites saved under the exact address are found again. *)
Theorem urlMatchesPattern_exact (origin : string -> option string)
    (url : string) (st : CodeFavoritesStorage) (favorite : CodeFavorite) :
  urlMatchesPattern origin url url = true
  /\ (In favorite (favorites st) -> urlPattern favorite = url ->
      In favorite (getFavoritesByUrl origin url st)).
Proof.
  assert (H : urlMatchesPattern origin url url = true).
  { unfold urlMatchesPattern, tryMatch, newURL, simpleComparison.
    destruct (origin url); cbn; now rewrite String.eqb_refl. }
  split; [exact H|].
  intros Hin Hpat. apply filter_In. split; [exact Hin|]. now rewrite Hpat.
Qed.

Lemma urlMatchesPattern_exact_witness :
  In (mkFavorite 1 "a" "() => 1" "not a url" 0 10)
     (getFavoritesByUrl plainOrigin "not a url"
        {| nextId := 2;
           favorites := [ mkFavorite 1 "a" "() => 1" "not a url" 0 10 ] |}).
Proof.
  apply (proj2 (urlMatchesPattern_exact plainOrigin "not a url"
                  {| nextId := 2;
                     favorites := [ mkFavorite 1 "a" "() => 1" "not a url" 0 10 ] |}
                  (mkFavorite 1 "a" "() => 1" "not a url" 0 10))).
  - now left.
  - reflexivity.
Defined.

(** When the address and the pattern parse as URLs of different origins,
    the address matches exactly when it is the pattern with every [*]
    replaced by a run of zero or more dots and every other character kept:
    that is all the compiled regular expression accepts. *)
Theorem wildcard_step_accepts_dot_runs (origin : string -> option string)
    (url pattern ou op : string)
    (Hurl : origin url = Some ou) (Hpattern : origin pattern = Some op)
    (Horigins : ou <> op) :
  urlMatchesPattern origin url pattern = true <-> DotRuns pattern url.
Proof.
  assert (Hne : (url =? pattern) = false).
  { apply String.eqb_neq. intros ->. congruence. }
  apply String.eqb_neq in Horigins.
  unfold urlMatchesPattern.
  rewrite (MatchingFacts.tryMatch_regex origin url pattern ou op
             Hurl Hpattern Hne Horigins).
  apply matchHere_dot_runs.
Qed.

Lemma wildcard_step_accepts_dot_runs_witness :
  urlMatchesPattern plainOrigin "https://..example.com/" "https://*.example.com/*"
    = true
  <-> DotRuns "https://*.example.com/*" "https://..example.com/".
Proof.
  apply (wildcard_step_accepts_dot_runs plainOrigin _ _
           "https://..example.com" "https://*.example.com").
  - reflexivity.
  - reflexivity.
  - discriminate.
Defined.

End WildcardFacts.

(* --------------------------------------------------------------------- *)
(** ** Reading all favourites and reloading the panel *)
(* --------------------------------------------------------------------- *)

Module PanelFacts.
Import Favorites Panel.

Lemma insert_perm (x : CodeFavorite) (l : list CodeFavorite) :
  Permutation (insertByComparator x l) (x :: l).
Proof.
  induction l as [|y l IH]; cbn [insertByComparator]; [reflexivity|].
  destruct (createdAt y - createdAt x <=? 0)%Z; [reflexivity|].
  rewrite IH. apply perm_swap.
Qed.

Lemma insert_sorted (x : CodeFavorite) (l : list CodeFavorite) :
  StronglySorted (fun a b => (createdAt b <= createdAt a)%Z) l ->
  StronglySorted (fun a b => (createdAt b <= createdAt a)%Z) (insertByComparator x l).
Proof.
  induction 1 as [|y l Hl IH Hy]; cbn [insertByComparator].
  - constructor; constructor.
  - destruct (Z.leb_spec (createdAt y - createdAt x) 0) as [Hle|Hgt].
    + constructor; [now constructor|].
      constructor; [lia|]. eapply Forall_impl; [|exact Hy]. cbn. intros; lia.
    + constructor; [exact IH|].
      apply (Permutation_Forall (Permutation_sym (insert_perm x l))).
      constructor; [lia | exact Hy].
Qed.

Lemma sort_sorted (l : list CodeFavorite) :
  StronglySorted (fun a b => (createdAt b <= createdAt a)%Z) (sortByComparator l).
Proof.
  induction l as [|x l IH]; [constructor | now apply insert_sorted].
Qed.

Lemma sort_perm (l : list CodeFavorite) : Permutation (sortByComparator l) l.
Proof.
  induction l as [|x l IH]; [reflexivity|].
  cbn [sortByComparator fold_right]. fold (sortByComparator l).
  now rewrite insert_perm, IH.
Qed.

Lemma insert_first (x : CodeFavorite) (l : list CodeFavorite) :
  Forall (fun z => (createdAt z <= createdAt x)%Z) l ->
  insertByComparator x l = x :: l.
Proof.
  destruct l as [|y l]; [reflexivity|]. intros H. inversion H; subst.
  cbn [insertByComparator].
  destruct (Z.leb_spec (createdAt y - createdAt x) 0); [reflexivity | lia].
Qed.

Lemma filter_insert (keep : CodeFavorite -> bool) (x : CodeFavorite)
    (l : list CodeFavorite) :
  StronglySorted (fun a b => (createdAt b <= createdAt a)%Z) l ->
  filter keep (insertByComparator x l)
  = if keep x then insertByComparator x (filter keep l) else filter keep l.
Proof.
  induction 1 as [|y l Hl IH Hy]; cbn [insertByComparator filter].
  - now destruct (keep x).
  - destruct (Z.leb_spec (createdAt y - createdAt x) 0) as [Hle|Hgt].
    + cbn [filter]. destruct (keep x); [|reflexivity].
      symmetry. apply insert_first.
      assert (Hall : Forall (fun z => (createdAt z <= createdAt x)%Z) (y :: l)).
      { constructor; [lia|]. eapply Forall_impl; [|exact Hy]. cbn. intros; lia. }
      rewrite Forall_forall in *. intros z Hz. apply Hall.
      change (In z (filter keep (y :: l))) in Hz.
      now apply filter_In in Hz as [Hz _].
    + cbn [filter]. rewrite IH.
      destruct (keep y), (keep x); try reflexivity.
      cbn [insertByComparator].
      destruct (Z.leb_spec (createdAt y - createdAt x) 0); [lia | reflexivity].
Qed.

Lemma sort_filter (keep : CodeFavorite -> bool) (l : list CodeFavorite) :
  sortByComparator (filter keep l) = filter keep (sortByComparator l).
Proof.
  induction l as [|x l IH]; [reflexivity|].
  cbn [sortByComparator fold_right filter]. fold (sortByComparator l).
  rewrite (filter_insert keep x _ (sort_sorted l)), <- IH.
  now destruct (keep x).
Qed.

Lemma insert_map (g : CodeFavorite -> CodeFavorite) (x : CodeFavorite)
    (l : list CodeFavorite) :
  (forall f, createdAt (g f) = createdAt f) ->
  insertByComparator (g x) (map g l) = map g (insertByComparator x l).
Proof.
  intros Hg. induction l as [|y l IH]; [reflexivity|].
  cbn [map insertByComparator]. rewrite !Hg.
  destruct (createdAt y - createdAt x <=? 0)%Z; [reflexivity|].
  cbn [map]. now rewrite IH.
Qed.

Lemma sort_map (g : CodeFavorite -> CodeFavorite) (l : list CodeFavorite) :
  (forall f, createdAt (g f) = createdAt f) ->
  sortByComparator (map g l) = map g (sortByComparator l).
Proof.
  intros Hg. induction l as [|x l IH]; [reflexivity|].
  cbn [map sortByComparator fold_right]. fold (sortByComparator (map g l)).
  fold (sortByComparator l). now rewrite IH, insert_map.
Qed.

Lemma filter_time_insert (t : Z) (x : CodeFavorite) (l : list CodeFavorite) :
  filter (fun f => (createdAt f =? t)%Z) (insertByComparator x l)
  = filter (fun f => (createdAt f =? t)%Z) (x :: l).
Proof.
  induction l as [|y l IH]; [reflexivity|]. cbn [insertByComparator].
  destruct (Z.leb_spec (createdAt y - createdAt x) 0) as [Hle|Hgt];
    [reflexivity|].
  cbn [filter] in *. rewrite IH.
  destruct (Z.eqb_spec (createdAt x) t), (Z.eqb_spec (createdAt y) t);
    try reflexivity.
  lia.
Qed.

(** [getAllFavorites] returns every stored favourite once, the most recently
    created first, and favourites created at the same time in their storage
    order. *)
Theorem getAllFavorites_sorted (st : CodeFavoritesStorage) :
  Permutation (getAllFavorites st) (favorites st)
  /\ StronglySorted (fun a b => (createdAt b <= createdAt a)%Z)
       (getAllFavorites st)
  /\ (forall t,
        filter (fun f => (createdAt f =? t)%Z) (getAllFavorites st)
        = filter (fun f => (createdAt f =? t)%Z) (favorites st)).
Proof.
  unfold getAllFavorites. split; [apply sort_perm|]. split; [apply sort_sorted|].
  intros t. induction (favorites st) as [|x l IH]; [reflexivity|].
  cbn [sortByComparator fold_right]. fold (sortByComparator l).
  rewrite filter_time_insert. cbn [filter]. now rewrite IH.
Qed.

Lemma getFavoritesByUrl_increment (origin : string -> option string)
    (url : string) (i : Z) (st : CodeFavoritesStorage) :
  getFavoritesByUrl origin url (incrementUseCount i st)
  = map (fun f => if (id f =? i)%Z then used f else f)
        (getFavoritesByUrl origin url st).
Proof.
  unfold getFavoritesByUrl, incrementUseCount. cbn [favorites].
  induction (favorites st) as [|f l IH]; [reflexivity|].
  cbn [map filter].
  assert (Hpat : urlPattern (if (id f =? i)%Z then used f else f) = urlPattern f)
    by now destruct (id f =? i)%Z.
  change (urlPattern
            (if (id f =? i)%Z
             then {| id := id f; name := name f; code := code f;
                     urlPattern := urlPattern f; useCount := useCount f + 1;
                     createdAt := createdAt f |}
             else f))
    with (urlPattern (if (id f =? i)%Z then used f else f)).
  rewrite Hpat. destruct (urlMatchesPattern origin url (urlPattern f)).
  - cbn [map]. f_equal. exact IH.
  - exact IH.
Qed.

Lemma filter_filter_comm {A : Type} (p q : A -> bool) (l : list A) :
  filter p (filter q l) = filter q (filter p l).
Proof.
  induction l as [|x l IH]; [reflexivity|]. cbn [filter].
  destruct (p x) eqn:Hp, (q x) eqn:Hq; cbn [filter];
    rewrite ?Hp, ?Hq, IH; reflexivity.
Qed.

(** Executing a favourite from the panel: the code run is the code of the
    favourite clicked, and the list shown afterwards is the list that was
    loaded before, in the same order, with the use count one higher on the
    favourites of that identifier and nothing else changed. *)
Theorem handleExecute_reloads (origin : string -> option string)
    (currentUrl : option string) (favorite : CodeFavorite)
    (st : CodeFavoritesStorage) :
  handleExecute origin currentUrl favorite st
  = (incrementUseCount (id favorite) st,
     code favorite,
     map (fun f =>
            if (id f =? id favorite)%Z
            then mkFavorite (id f) (name f) (code f) (urlPattern f)
                   (useCount f + 1) (createdAt f)
            else f)
         (loadFavorites origin currentUrl st)).
Proof.
  unfold handleExecute. f_equal.
  assert (Hall : getAllFavorites (incrementUseCount (id favorite) st)
                 = map (fun f => if (id f =? id favorite)%Z then used f else f)
                       (getAllFavorites st)).
  { unfold getAllFavorites, incrementUseCount. cbn [favorites].
    apply (sort_map (fun f => if (id f =? id favorite)%Z then used f else f)).
    intros f. now destruct (id f =? id favorite)%Z. }
  unfold loadFavorites. destruct currentUrl as [url|]; [|exact Hall].
  destruct (negb (url =? "")); [apply getFavoritesByUrl_increment | exact Hall].
Qed.

(** Deleting a favourite from the panel: once confirmed, the list shown is
    the list that was loaded before without the favourites of that
    identifier, in the same order, and the identifier is gone from the
    store; when the user declines, the store and the list stay as they
    were. *)
Theorem handleDelete_reloads (origin : string -> option string)
    (currentUrl : option string) (i : Z) (shown : list CodeFavorite)
    (st : CodeFavoritesStorage) :
  handleDelete origin currentUrl i true shown st
    = (removeFavorite i st,
       filter (fun f => negb (id f =? i)%Z) (loadFavorites origin currentUrl st))
  /\ getFavoriteById i (fst (handleDelete origin currentUrl i true shown st)) = None
  /\ handleDelete origin currentUrl i false shown st = (st, shown).
Proof.
  unfold handleDelete. split; [|split; [|reflexivity]].
  - f_equal.
    assert (Hall : getAllFavorites (removeFavorite i st)
                   = filter (fun f => negb (id f =? i)%Z) (getAllFavorites st)).
    { unfold getAllFavorites, removeFavorite. cbn [favorites]. apply sort_filter. }
    unfold loadFavorites. destruct currentUrl as [url|]; [|exact Hall].
    destruct (negb (url =? "")); [|exact Hall].
    unfold getFavoritesByUrl, removeFavorite. cbn [favorites].
    apply filter_filter_comm.
  - cbn [fst]. unfold getFavoriteById, removeFavorite. cbn [favorites].
    now rewrite StoreReadFacts.find_filter_other, Z.eqb_refl.
Qed.

Lemma has_filter (i j : Z) (ids : list Z) :
  has (filter (fun other => negb (other =? i)%Z) ids) j
  = has ids j && negb (j =? i)%Z.
Proof.
  unfold has. induction ids as [|k ids IH]; [reflexivity|]. cbn [filter existsb].
  destruct (Z.eqb_spec k i) as [Ek|Nk]; cbn [negb existsb].
  - rewrite IH. destruct (Z.eqb_spec j k) as [Ej|Nj]; cbn [orb].
    + subst. now rewrite Z.eqb_refl, andb_false_r.
    + reflexivity.
  - rewrite IH. destruct (Z.eqb_spec j k) as [Ej|Nj]; cbn [orb]; [|reflexivity].
    subst. destruct (Z.eqb_spec k i); [contradiction|reflexivity].
Qed.

Lemma has_In (ids : list Z) (j : Z) : has ids j = true <-> In j ids.
Proof.
  unfold has. rewrite existsb_exists. split.
  - intros [k [Hk E]]. apply Z.eqb_eq in E. now subst.
  - intros H. exists j. split; [exact H | apply Z.eqb_refl].
Qed.

(** Expanding and collapsing: [toggleExpand] flips the membership of the
    clicked identifier and of no other, keeps the set free of duplicates,
    and toggling the same identifier twice gives back the same members. *)
Theorem toggleExpand_flips (i : Z) (prev : list Z) :
  (forall j, has (toggleExpand i prev) j
             = if (j =? i)%Z then negb (has prev i) else has prev j)
  /\ (NoDup prev -> NoDup (toggleExpand i prev))
  /\ (forall j, has (toggleExpand i (toggleExpand i prev)) j = has prev j).
Proof.
  assert (Hflip : forall l j,
             has (toggleExpand i l) j
             = if (j =? i)%Z then negb (has l i) else has l j).
  { intros l j. unfold toggleExpand. destruct (has l i) eqn:Hi.
    - rewrite has_filter. destruct (Z.eqb_spec j i) as [->|_].
      + apply andb_false_r.
      + apply andb_true_r.
    - unfold has in *. rewrite existsb_app. cbn [existsb].
      rewrite orb_false_r. destruct (Z.eqb_spec j i) as [->|_].
      + now rewrite Hi.
      + apply orb_false_r. }
  split; [apply Hflip|]. split.
  - intros Hnd. unfold toggleExpand. destruct (has prev i) eqn:Hi.
    + now apply NoDup_filter.
    + apply NoDup_app; [exact Hnd | repeat constructor; intros [] |].
      intros j Hj [<-|[]]. apply has_In in Hj. congruence.
  - intros j. rewrite !Hflip. destruct (Z.eqb_spec j i) as [->|_].
    + rewrite Z.eqb_refl. apply negb_involutive.
    + reflexivity.
Qed.

Lemma toggleExpand_flips_witness : NoDup (toggleExpand 2 [1; 2; 3]%Z).
Proof.
  apply (proj1 (proj2 (toggleExpand_flips 2 [1; 2; 3]%Z))).
  repeat constructor; cbn; intuition discriminate.
Defined.

End PanelFacts.

(* --------------------------------------------------------------------- *)
(** ** The Navigator prompt: white space around the message *)
(* --------------------------------------------------------------------- *)

Module PromptFacts.
Import Navigator.

Lemma trimStart_idem (s : string) : trimStart (trimStart s) = trimStart s.
Proof.
  induction s as [|c s IH]; [reflexivity|]. cbn [trimStart].
  destruct (isWhiteSpace c) eqn:Hc; [exact IH|].
  cbn [trimStart]. now rewrite Hc.
Qed.

Lemma trimEnd_idem (s : string) : trimEnd (trimEnd s) = trimEnd s.
Proof.
  induction s as [|c s IH]; [reflexivity|]. cbn [trimEnd].
  destruct (trimEnd s) as [|d r] eqn:Hr.
  - destruct (isWhiteSpace c) eqn:Hc; [reflexivity|].
    cbn [trimEnd]. now rewrite Hc.
  - cbn [trimEnd]. cbn [trimEnd] in IH.
    destruct (trimEnd r) as [|e r'] eqn:Hr'.
    + destruct (isWhiteSpace d); [discriminate|]. injection IH as ->. reflexivity.
    + now rewrite IH.
Qed.

Lemma trimStart_trimEnd (s : string) :
  trimStart s = s -> trimStart (trimEnd s) = trimEnd s.
Proof.
  destruct s as [|c s]; [reflexivity|]. cbn [trimStart trimEnd].
  destruct (isWhiteSpace c) eqn:Hc.
  - intros H. exfalso.
    assert (Hlen : String.length (trimStart s) <= String.length s).
    { clear. induction s as [|d s IH]; cbn [trimStart]; [lia|].
      destruct (isWhiteSpace d); cbn [String.length]; lia. }
    rewrite H in Hlen. cbn [String.length] in Hlen. lia.
  - intros _. destruct (trimEnd s); cbn [trimStart]; now rewrite Hc.
Qed.

Lemma trim_idem (s : string) : trim (trim s) = trim s.
Proof.
  unfold trim.
  rewrite (trimStart_trimEnd (trimStart s) (trimStart_idem s)).
  apply trimEnd_idem.
Qed.

Lemma trimEnd_append (a b : string) :
  b <> "" -> trimEnd b = b -> trimEnd (a ++ b) = a ++ b.
Proof.
  intros Hb Hfix. induction a as [|c a IH]; [exact Hfix|].
  simpl append. cbn [trimEnd]. rewrite IH.
  destruct (a ++ b) eqn:E; [|reflexivity].
  destruct a; [simpl in E; contradiction | discriminate].
Qed.

Lemma trimStart_append (a b : string) :
  a <> "" -> trimStart a = a -> trimStart (a ++ b) = a ++ b.
Proof.
  destruct a as [|c a]; [contradiction|]. intros _. cbn [trimStart].
  destruct (isWhiteSpace c) eqn:Hc.
  - intros H. exfalso.
    assert (Hlen : String.length (trimStart a) <= String.length a).
    { clear. induction a as [|d a IH]; cbn [trimStart]; [lia|].
      destruct (isWhiteSpace d); cbn [String.length]; lia. }
    rewrite H in Hlen. cbn [String.length] in Hlen. lia.
  - intros _. simpl append. cbn [trimStart]. now rewrite Hc.
Qed.

(** The system message never ends with white space; it does not start with
    white space either, unless the template formats to the empty string
    while code generation is allowed; and without the code-execution
    section trimming it again changes nothing. *)
Theorem NavigatorPrompt_trimmed (navigatorSystemPromptTemplate : string)
    (maxActionsPerStep : option Z) (generalSettings : option GeneralSettingsConfig) :
  trimEnd (NavigatorPrompt navigatorSystemPromptTemplate maxActionsPerStep
             generalSettings)
    = NavigatorPrompt navigatorSystemPromptTemplate maxActionsPerStep generalSettings
  /\ (codeGenerationAllowed generalSettings = false
      \/ formattedPrompt navigatorSystemPromptTemplate
           (match maxActionsPerStep with Some n => n | None => 10%Z end) <> "" ->
      trimStart (NavigatorPrompt navigatorSystemPromptTemplate maxActionsPerStep
                   generalSettings)
        = NavigatorPrompt navigatorSystemPromptTemplate maxActionsPerStep
            generalSettings)
  /\ (codeGenerationAllowed generalSettings = false ->
      trim (NavigatorPrompt navigatorSystemPromptTemplate maxActionsPerStep
              generalSettings)
        = NavigatorPrompt navigatorSystemPromptTemplate maxActionsPerStep
            generalSettings).
Proof.
  unfold NavigatorPrompt.
  set (base := formattedPrompt navigatorSystemPromptTemplate
                 (match maxActionsPerStep with Some n => n | None => 10%Z end)).
  assert (Hend : trimEnd base = base).
  { unfold base, formattedPrompt, trim. apply trimEnd_idem. }
  assert (Hstart : trimStart base = base).
  { unfold base, formattedPrompt, trim.
    apply trimStart_trimEnd, trimStart_idem. }
  assert (Hsection : trimEnd codeExecutionSection = codeExecutionSection)
    by (vm_compute; reflexivity).
  split; [|split].
  - destruct (codeGenerationAllowed generalSettings); [|exact Hend].
    apply trimEnd_append; [|exact Hsection].
    apply NavigatorFacts.codeExecutionSection_not_empty.
  - destruct (codeGenerationAllowed generalSettings).
    + intros [H|H]; [discriminate|]. now apply trimStart_append.
    + intros _. exact Hstart.
  - intros ->. unfold trim. now rewrite Hstart.
Qed.

Lemma NavigatorPrompt_trimmed_witness :
  trim (NavigatorPrompt "  Use {{max_actions}} actions.
" (Some 3%Z) None)
  = NavigatorPrompt "  Use {{max_actions}} actions.
" (Some 3%Z) None.
Proof.
  apply (proj2 (proj2 (NavigatorPrompt_trimmed _ (Some 3%Z) None))).
  reflexivity.
Defined.

End PromptFacts.

(* --------------------------------------------------------------------- *)
(** ** The step loop: Fast JS Mode and other tasks *)
(* --------------------------------------------------------------------- *)

Module LoopFacts.
Import Executor.

(** For a task the classifier does not take for a client-side JavaScript
    task, the run does not depend on the Fast JS Mode setting: switching it
    leaves the outcome and every iteration of the loop the same. *)
Theorem fastJsMode_ignored_for_other_tasks
    (isClientSideJsTask : string -> bool) (ex : Executor)
    (settings : GeneralSettingsConfig)
    (Hsettings : generalSettings ex = Some settings)
    (Htask : isClientSideJsTask (currentTask ex) = false) :
  execute isClientSideJsTask
    (withSettings
       (Some (mkSettings (allowCodeGeneration settings) (negb (fastJsMode settings))))
       ex)
  = execute isClientSideJsTask ex.
Proof.
  unfold execute. rewrite ExecutorFacts.stepLoop_withSettings.
  unfold jsOnlyForThisTask.
  change (currentTask (withSettings _ ex)) with (currentTask ex).
  now rewrite Htask, !andb_false_r.
Qed.

Lemma fastJsMode_ignored_for_other_tasks_witness :
  execute (fun task => includes task "use JS")
    (withSettings (Some (mkSettings true false))
       (mkExecutor "find the cheapest flight to Oslo" []
          (Some (mkSettings true true))
          (Some (fun n => if (n =? 6)%nat then PassDone else PassContinue))
          (fun _ => PassContinue) (fun _ => false) 3 10))
  = execute (fun task => includes task "use JS")
      (mkExecutor "find the cheapest flight to Oslo" []
         (Some (mkSettings true true))
         (Some (fun n => if (n =? 6)%nat then PassDone else PassContinue))
         (fun _ => PassContinue) (fun _ => false) 3 10).
Proof.
  apply (fastJsMode_ignored_for_other_tasks _ _ (mkSettings true true));
    reflexivity.
Defined.

End LoopFacts.

(* --------------------------------------------------------------------- *)
(** ** From a saved message to the panel *)
(* --------------------------------------------------------------------- *)

Module SaveFlowFacts.
Import Favorites.

Lemma codeToSave_recovers_witness :
  Codec.codeToSave None
    (Codec.encode "Code execution failed: x is not defined" "() => x")
  = Some "() => x".
Proof.
  apply (CodecFacts.codeToSave_encode
           "Code execution failed: x is not defined" "() => x");
    reflexivity.
Defined.

(** A favourite saved under the current address is the first of the
    favourites listed for that address right afterwards, followed by those
    listed before, whether or not the address parses as a URL. *)
Theorem saved_favorite_listed_first (origin : string -> option string)
    (name code url : string) (now : Z) (st : CodeFavoritesStorage) :
  getFavoritesByUrl origin url (fst (addFavorite name code url now st))
  = mkFavorite (nextId st) name code url 0 now :: getFavoritesByUrl origin url st.
Proof.
  unfold getFavoritesByUrl, addFavorite. cbn [fst favorites filter urlPattern].
  assert (H : urlMatchesPattern origin url url = true).
  { unfold urlMatchesPattern, tryMatch, newURL, simpleComparison.
    destruct (origin url); cbn; now rewrite String.eqb_refl. }
  now rewrite H.
Qed.

Lemma DotRuns_wildcard (pattern url : string) :
  DotRuns pattern url -> wildcardMatches pattern url = true.
Proof.
  induction 1 as [|c pattern url Hc _ IH|pattern url _ IH|pattern url _ IH].
  - reflexivity.
  - cbn [wildcardMatches]. now rewrite Hc, Ascii.eqb_refl, IH.
  - cbn [wildcardMatches] in *. change (Ascii.eqb "*" "*") with true. cbv iota.
    destruct url; now rewrite IH.
  - cbn [wildcardMatches] in *. change (Ascii.eqb "*" "*") with true in *.
    cbv iota in *. rewrite IH. apply orb_true_r.
Qed.

(** The wildcard step never accepts an address that the pattern, read with
    every [*] as any substring, would reject: for URLs of different
    origins a match implies a match in that reading. *)
Theorem wildcard_step_never_too_wide (origin : string -> option string)
    (url pattern ou op : string)
    (Hurl : origin url = Some ou) (Hpattern : origin pattern = Some op)
    (Horigins : ou <> op)
    (Hmatch : urlMatchesPattern origin url pattern = true) :
  wildcardMatches pattern url = true.
Proof.
  assert (Hne : (url =? pattern) = false).
  { apply String.eqb_neq. intros ->. congruence. }
  apply String.eqb_neq in Horigins.
  unfold urlMatchesPattern in Hmatch.
  rewrite (MatchingFacts.tryMatch_regex origin url pattern ou op
             Hurl Hpattern Hne Horigins) in Hmatch.
  apply DotRuns_wildcard. now apply WildcardFacts.matchHere_dot_runs in Hmatch.
Qed.

Lemma wildcard_step_never_too_wide_witness :
  wildcardMatches "https://*.example.com/*" "https://..example.com/" = true.
Proof.
  apply (wildcard_step_never_too_wide plainOrigin _ _
           "https://..example.com" "https://*.example.com").
  - reflexivity.
  - reflexivity.
  - discriminate.
  - reflexivity.
Defined.

End SaveFlowFacts.
